(** * Gemini weather chatbot backend (src/main.py): model and properties

    The backend is one FastAPI module: a weather tool ([get_weather]), two
    DynamoDB helpers ([save_message], [get_recent_history]) and three
    endpoints.  Everything it talks to (the clock, DynamoDB, the weather
    provider, the Gemini service) is an external collaborator; here each one
    is an oracle of a [World], and the module's functions are written in a
    state-and-exception monad over the table contents and a log of the
    outbound calls. *)

From stdpp Require Import gmap strings list sorting.
From Stdlib Require Import ZArith Lia Ascii.

Set Warnings "-register-all".

(** ** Python exceptions and results *)

Inductive exn : Type :=
| NameError (name : string)
| KeyError (key : string)
| IndexError
| TypeError
| AttributeError
| ValueError (msg : string)
| RequestException (msg : string)      (* requests.exceptions.*, all subclasses *)
| HTTPException (status_code : Z) (detail : string)   (* fastapi *)
| ClientError (msg : string)           (* botocore: a failed table request *)
| ParamValidationError                 (* botocore: Limit below 1 *)
| GoogleAPIError (msg : string).       (* a failed generate_content call *)

Inductive Result (A : Type) : Type :=
| Ok (a : A)
| Err (e : exn).
Arguments Ok {A} a.
Arguments Err {A} e.

Global Instance exn_eq_dec : EqDecision exn.
Proof. solve_decision. Defined.

(** ** JSON values, as [response.json()] hands them to the code *)

Inductive json : Type :=
| JNull
| JBool (b : bool)
| JNumber (literal : string)
| JString (s : string)
| JArray (items : list json)
| JObject (fields : list (string * json)).

Fixpoint assoc (k : string) (fields : list (string * json)) : option json :=
  match fields with
  | [] => None
  | (k', v) :: rest => if decide (k = k') then Some v else assoc k rest
  end.

(** [data[key]] for a string key. *)
Definition getitem (data : json) (key : string) : Result json :=
  match data with
  | JObject fields =>
      match assoc key fields with
      | Some v => Ok v
      | None => Err (KeyError key)
      end
  | _ => Err TypeError
  end.

(** [data[0]]. *)
Definition getitem0 (data : json) : Result json :=
  match data with
  | JArray [] => Err IndexError
  | JArray (x :: _) => Ok x
  | JString EmptyString => Err IndexError
  | JString (String c _) => Ok (JString (String c EmptyString))
  | JObject _ => Err (KeyError "0")
  | _ => Err TypeError
  end.

(** ** Timestamps: [datetime.now(timezone.utc).isoformat()] *)

Record datetime : Type := {
  year : nat; month : nat; day : nat;
  hour : nat; minute : nat; second : nat; microsecond : nat
}.

Definition digit (n : nat) : ascii := ascii_of_nat (48 + n `mod` 10).

(** [n] in decimal on exactly [width] digits (the [%0*d] of isoformat). *)
Fixpoint zero_pad (width n : nat) : string :=
  match width with
  | 0 => EmptyString
  | S w => String (digit (n / 10 ^ w)) (zero_pad w (n `mod` 10 ^ w))
  end.

(** isoformat of an aware UTC datetime: the fraction is left out when the
    microsecond field is 0. *)
Definition isoformat (d : datetime) : string :=
  zero_pad 4 (year d) +:+ "-" +:+ zero_pad 2 (month d) +:+ "-" +:+
  zero_pad 2 (day d) +:+ "T" +:+ zero_pad 2 (hour d) +:+ ":" +:+
  zero_pad 2 (minute d) +:+ ":" +:+ zero_pad 2 (second d) +:+
  (if decide (microsecond d = 0) then EmptyString else "." +:+ zero_pad 6 (microsecond d))
  +:+ "+00:00".

(** The ranges Python's datetime type enforces. *)
Definition valid_datetime (d : datetime) : Prop :=
  1 ≤ year d < 10 ^ 4 ∧ 1 ≤ month d ≤ 12 ∧ 1 ≤ day d ≤ 31 ∧
  hour d < 24 ∧ minute d < 60 ∧ second d < 60 ∧ microsecond d < 10 ^ 6.

(** Chronological order of two UTC instants. *)
Definition datetime_compare (a b : datetime) : comparison :=
  match year a ?= year b with Eq =>
  match month a ?= month b with Eq =>
  match day a ?= day b with Eq =>
  match hour a ?= hour b with Eq =>
  match minute a ?= minute b with Eq =>
  match second a ?= second b with Eq =>
    microsecond a ?= microsecond b
  | c => c end | c => c end | c => c end | c => c end | c => c end | c => c end.

Definition earlier (a b : datetime) : Prop := datetime_compare a b = Lt.

(** ** The history table *)

Record Item : Type := {
  UserID : string; Timestamp : string; Sender : string; Message : string
}.

Global Instance Item_eq_dec : EqDecision Item.
Proof. solve_decision. Defined.

(** Primary key (UserID, Timestamp); the other attributes are the value. *)
Abbreviation Table := (gmap (string * string) (string * string)).

Definition item_of (kv : (string * string) * (string * string)) : Item :=
  {| UserID := kv.1.1; Timestamp := kv.1.2; Sender := kv.2.1; Message := kv.2.2 |}.

Definition table_items (t : Table) : list Item := item_of <$> map_to_list t.

(** Python's ordering of the sort key (strings, code point by code point). *)
Definition ts_le (a b : Item) : Prop := String.le (Timestamp a) (Timestamp b).

Global Instance ts_le_dec : RelDecision ts_le.
Proof. intros a b. unfold ts_le. apply _. Defined.

(** [sorted(items, key=lambda x: x['Timestamp'])]: a stable sort. *)
Fixpoint insert_by_timestamp (x : Item) (l : list Item) : list Item :=
  match l with
  | [] => [x]
  | y :: l' =>
      if decide (ts_le x y) then x :: y :: l' else y :: insert_by_timestamp x l'
  end.

Definition sorted_by_timestamp (items : list Item) : list Item :=
  foldr insert_by_timestamp [] items.

(** What a Query on [UserID = user_id] with [ScanIndexForward=False] and
    [Limit=limit] answers: the user's items, newest first, cut at [limit]. *)
Definition user_items (t : Table) (user_id : string) : list Item :=
  filter (λ it, UserID it = user_id) (table_items t).

Definition query_items (t : Table) (user_id : string) (limit : nat) : list Item :=
  take limit (reverse (sorted_by_timestamp (user_items t user_id))).

(** ** The weather provider's answer to [requests.get] *)

Inductive Body : Type :=
| NotJson (msg : string)      (* [response.json()] raises requests' JSONDecodeError *)
| JsonBody (data : json).

Inductive Fetch : Type :=
| FetchFailed (msg : string)  (* connection error, timeout: a RequestException *)
| FetchReplied (status_code : Z) (http_error_msg : string) (body : Body).

(** ** The Gemini client's objects *)

Record FunctionCall : Type := {
  fc_name : string;
  args : gmap string string
}.

Record Part : Type := {
  part_text : option string;
  function_call : option FunctionCall    (* [None]: the field is falsy *)
}.

Record Content : Type := { parts : list Part }.

Record Candidate : Type := { content : option Content }.

(** [text] is what the [response.text] accessor does when it is read: it
    yields the text or raises. *)
Record GenerateContentResponse : Type := {
  candidates : list Candidate;
  text : Result string
}.

(** What a chat session holds and sends. *)
Inductive ChatContent : Type :=
| TextContent (role : string) (t : string)
| ModelContent (r : GenerateContentResponse)
| FunctionResponseContent (name : string) (result : string).

(** ** The world outside the process *)

Abbreviation Params := (list (string * option string)).

Record World : Type := {
  (** the k-th reading of [datetime.now(timezone.utc)] *)
  now : nat → datetime;
  (** the exception, if any, the k-th table request ends with *)
  store_fault : nat → option exn;
  (** the order in which the table hands back the items of a Query's
      answer: the same items, in an order the code does not choose *)
  query_order : list Item → list Item;
  query_order_perm : ∀ items, query_order items ≡ₚ items;
  requests_get : string → Params → Fetch;
  generate_content : list ChatContent → Result GenerateContentResponse;
  json_dumps : json → string
}.

Inductive Event : Type :=
| EvPutItem (it : Item)
| EvQuery (user_id : string) (limit : Z)
| EvGetWeather (location : option string) (unit : string)
| EvHttpGet (url : string) (params : Params)
| EvSendMessage (contents : list ChatContent).

Record State : Type := {
  table : Table;
  clock_reads : nat;
  store_requests : nat;
  trace : list Event            (* oldest first *)
}.

(** ** State and exceptions *)

Definition M (A : Type) : Type := State → Result A * State.

Global Instance M_ret : MRet M := λ A a s, (Ok a, s).

Global Instance M_bind : MBind M := λ A B f m s,
  match m s with
  | (Ok a, s') => f a s'
  | (Err e, s') => (Err e, s')
  end.

Definition raise {A} (e : exn) : M A := λ s, (Err e, s).

Definition lift {A} (r : Result A) : M A := λ s, (r, s).

(** [try: body  except <the exceptions handler takes>: ...]; a handler
    answers [None] for an exception its clause does not name. *)
Definition try_except {A} (body : M A) (handler : exn → option (M A)) : M A :=
  λ s,
    match body s with
    | (Ok a, s') => (Ok a, s')
    | (Err e, s') =>
        match handler e with
        | Some h => h s'
        | None => (Err e, s')
        end
    end.

Definition emit (ev : Event) : M unit := λ s,
  (Ok (), {| table := table s; clock_reads := clock_reads s;
             store_requests := store_requests s; trace := trace s ++ [ev] |}).

(** ** Module globals (lines 15-29) *)

Abbreviation Environ := (gmap string string).

(** A module-level name is bound to a value or not bound at all. *)
Inductive binding (A : Type) : Type :=
| Unbound
| Bound (a : A).
Arguments Unbound {A}.
Arguments Bound {A} a.

Record Globals : Type := {
  GOOGLE_API_KEY : option string;
  WEATHER_API_KEY : option string;
  CHAT_HISTORY_TABLE_NAME : option string;
  dynamodb_client : option string;       (* [None] is Python's None *)
  chat_history_table : binding string    (* the Table resource, by name *)
}.

(** Truth value of [os.getenv(...)]: None and the empty string are falsy. *)
Definition truthy (v : option string) : bool :=
  match v with
  | None | Some EmptyString => false
  | Some _ => true
  end.

Definition str_truthy (s : string) : bool := truthy (Some s).

(** Running the module body: [dynamodb_client = None] is always executed,
    the two assignments under [if CHAT_HISTORY_TABLE_NAME:] only when the
    variable is set. *)
Definition module_globals (environ : Environ) : Globals :=
  let table_name := environ !! "CHAT_HISTORY_TABLE_NAME" in
  {| GOOGLE_API_KEY := environ !! "GEMINI_API_KEY";
     WEATHER_API_KEY := environ !! "OPENWEATHER_API_KEY";
     CHAT_HISTORY_TABLE_NAME := table_name;
     dynamodb_client := if truthy table_name then Some "dynamodb" else None;
     chat_history_table :=
       match table_name with
       | Some name => if truthy table_name then Bound name else Unbound
       | None => Unbound
       end |}.

(** Reading the global [chat_history_table]. *)
Definition read_chat_history_table (g : Globals) : M string :=
  match chat_history_table g with
  | Bound t => mret t
  | Unbound => raise (NameError "chat_history_table")
  end.

(** ** Clock and table requests *)

Definition utc_now_isoformat (w : World) : M string := λ s,
  (Ok (isoformat (now w (clock_reads s))),
   {| table := table s; clock_reads := S (clock_reads s);
      store_requests := store_requests s; trace := trace s |}).

Definition table_request {A} (w : World) (ev : Event)
    (answer : Table → A) (update : Table → Table) : M A := λ s,
  let k := store_requests s in
  match store_fault w k with
  | Some e =>
      (Err e, {| table := table s; clock_reads := clock_reads s;
                 store_requests := S k; trace := trace s ++ [ev] |})
  | None =>
      (Ok (answer (table s)),
       {| table := update (table s); clock_reads := clock_reads s;
          store_requests := S k; trace := trace s ++ [ev] |})
  end.

(** [put_item] writes the item under its key, replacing one already there. *)
Definition put_item (w : World) (it : Item) : M unit :=
  table_request w (EvPutItem it) (λ _, ())
    (λ t, <[(UserID it, Timestamp it) := (Sender it, Message it)]> t).

(** [query(KeyConditionExpression=..., ScanIndexForward=False, Limit=limit)]
    and [response.get('Items', [])]. *)
Definition query (w : World) (user_id : string) (limit : Z) : M (list Item) :=
  if decide (limit < 1)%Z then raise ParamValidationError
  else table_request w (EvQuery user_id limit)
         (λ t, query_order w (query_items t user_id (Z.to_nat limit))) (λ t, t).

(** ** Tool definition: get_weather (lines 43-53) *)

Definition default_unit : string := "celsius".

Definition raise_for_status (status_code : Z) (http_error_msg : string) : M unit :=
  if decide (400 ≤ status_code < 600)%Z then raise (RequestException http_error_msg)
  else mret ().

Definition response_json (body : Body) : M json :=
  match body with
  | NotJson msg => raise (RequestException msg)
  | JsonBody data => mret data
  end.

Definition weather_params (g : Globals) (location : option string) (unit : string)
    : Params :=
  [("q", location); ("appid", WEATHER_API_KEY g);
   ("units", Some (if decide (unit = "celsius") then "metric" else "imperial"))].

Definition weather_report (w : World) (unit : string) (data : json) : M string :=
  name ← lift (getitem data "name");
  main ← lift (getitem data "main");
  temp ← lift (getitem main "temp");
  weather ← lift (getitem data "weather");
  first ← lift (getitem0 weather);
  description ← lift (getitem first "description");
  mret (json_dumps w (JObject [("location", name); ("temperature", temp);
                               ("unit", JString unit); ("conditions", description)])).

Definition weather_error (w : World) (msg : string) : string :=
  json_dumps w (JObject [("error", JString ("Failed to get weather data: " +:+ msg))]).

Definition get_weather (w : World) (g : Globals)
    (location : option string) (unit : string) : M string :=
  emit (EvGetWeather location unit);;
  let base_url := "http://api.openweathermap.org/data/2.5/weather" in
  let params := weather_params g location unit in
  try_except
    (emit (EvHttpGet base_url params);;
     match requests_get w base_url params with
     | FetchFailed msg => raise (RequestException msg)
     | FetchReplied status_code http_error_msg body =>
         raise_for_status status_code http_error_msg;;
         data ← response_json body;
         weather_report w unit data
     end)
    (λ e, match e with
          | RequestException msg => Some (mret (weather_error w msg))
          | _ => None
          end).

(** ** Database helper functions (lines 56-71) *)

(** A Table resource is an ordinary object: it is truthy. *)
Definition table_truthy (t : string) : bool := true.

Definition save_message (w : World) (g : Globals)
    (user_id sender message : string) : M unit :=
  t ← read_chat_history_table g;
  if negb (table_truthy t) then mret ()
  else
    timestamp ← utc_now_isoformat w;
    put_item w {| UserID := user_id; Timestamp := timestamp;
                  Sender := sender; Message := message |}.

Definition get_recent_history (w : World) (g : Globals)
    (user_id : string) (limit : Z) : M (list Item) :=
  t ← read_chat_history_table g;
  if negb (table_truthy t) then mret []
  else
    items ← query w user_id limit;
    mret (sorted_by_timestamp items).

(** ** API endpoints (lines 74-113) *)

Record ChatRequest : Type := { userId : string; message : string }.

Record ChatResponse : Type := { response : string }.

(** One entry of the [history=] list built on line 87. *)
Definition history_entry (item : Item) : ChatContent :=
  TextContent (if decide (Sender item = "USER") then "user" else "model")
              (Message item).

(** [chat.send_message(content)]: the session's contents so far plus the new
    content go to the service; the reply is kept in the session. *)
Definition send_message (w : World) (chat : list ChatContent) (c : ChatContent)
    : M (GenerateContentResponse * list ChatContent) :=
  let contents := chat ++ [c] in
  emit (EvSendMessage contents);;
  r ← lift (generate_content w contents);
  mret (r, contents ++ [ModelContent r]).

(** [response.candidates[0].content.parts[0]] *)
Definition first_part (r : GenerateContentResponse) : Result Part :=
  match candidates r with
  | [] => Err IndexError
  | c :: _ =>
      match content c with
      | None => Err AttributeError
      | Some ct =>
          match parts ct with
          | [] => Err IndexError
          | p :: _ => Ok p
          end
      end
  end.

(** The exceptions named by the except clause on line 101. *)
Definition index_or_attribute_error (e : exn) : bool :=
  match e with
  | IndexError | AttributeError => true
  | _ => false
  end.

(** Lines 90-102: the try block and its except clause. *)
Definition response_text_of (w : World) (g : Globals)
    (chat : list ChatContent) (r : GenerateContentResponse) : M string :=
  try_except
    (part ← lift (first_part r);
     match function_call part with
     | Some fc =>
         function_response_data ← get_weather w g (args fc !! "location") default_unit;
         '(api_response, _) ← send_message w chat
            (FunctionResponseContent "get_weather" function_response_data);
         lift (text api_response)
     | None => lift (text r)
     end)
    (λ e, if index_or_attribute_error e then Some (lift (text r)) else None).

(** Lines 80-88: validation, the USER write, the history window and the
    first call of the model. *)
Definition chat_open (w : World) (g : Globals) (request : ChatRequest)
    : M (GenerateContentResponse * list ChatContent) :=
  if negb (str_truthy (message request)) || negb (str_truthy (userId request))
  then raise (HTTPException 400 "userId and message cannot be empty")
  else
    save_message w g (userId request) "USER" (message request);;
    history ← get_recent_history w g (userId request) 5;
    send_message w (history_entry <$> history)
      (TextContent "user" (message request)).

(** Lines 80-102: everything up to the answer text. *)
Definition chat_answer (w : World) (g : Globals) (request : ChatRequest) : M string :=
  '(r, chat) ← chat_open w g request;
  response_text_of w g chat r.

(** Lines 79-105, the whole handler. *)
Definition chat_with_gemini (w : World) (g : Globals) (request : ChatRequest)
    : M ChatResponse :=
  response_text ← chat_answer w g request;
  save_message w g (userId request) "BOT" response_text;;
  mret {| response := response_text |}.

Definition get_full_history (w : World) (g : Globals) (user_id : string)
    : M (list Item) :=
  get_recent_history w g user_id 100.

Definition root : M string := mret "Backend is running".

(** ** What the framework answers *)

(** The JSON body of a POST /chat, before it is read as a [ChatRequest]. *)
Record ChatBody : Type := {
  body_userId : option string;
  body_message : option string
}.

Inductive HttpResponse (A : Type) : Type :=
| Http200 (payload : A)
| HttpError (status : Z).
Arguments Http200 {A} payload.
Arguments HttpError {A} status.

(** An HTTPException carries its status; any other exception is a 500. *)
Definition respond {A} (r : Result A) : HttpResponse A :=
  match r with
  | Ok a => Http200 a
  | Err (HTTPException status_code _) => HttpError status_code
  | Err _ => HttpError 500
  end.

(** POST /chat: a body without one of the two required fields does not make
    a ChatRequest, and FastAPI answers 422 without calling the handler. *)
Definition post_chat (w : World) (g : Globals) (body : ChatBody) (s : State)
    : HttpResponse ChatResponse * State :=
  match body_userId body, body_message body with
  | Some u, Some m =>
      let '(r, s') := chat_with_gemini w g {| userId := u; message := m |} s in
      (respond r, s')
  | _, _ => (HttpError 422, s)
  end.

(** GET /history/{user_id} *)
Definition get_history (w : World) (g : Globals) (user_id : string) (s : State)
    : HttpResponse (list Item) * State :=
  let '(r, s') := get_full_history w g user_id s in (respond r, s').

(** ** Reading a run *)

Definition is_get_weather (ev : Event) : bool :=
  match ev with EvGetWeather _ _ => true | _ => false end.

(** How many times [get_weather] was entered. *)
Definition weather_calls (tr : list Event) : nat :=
  length (filter (λ ev, is_get_weather ev = true) tr).

(** The items handed to [put_item], in order. *)
Definition put_items (tr : list Event) : list Item :=
  omap (λ ev, match ev with EvPutItem it => Some it | _ => None end) tr.


Definition writes_and_clock (s : State) : list Item * nat :=
  (put_items (trace s), clock_reads s).

(** [m] never changes the observation [φ] of the state, whether it returns
    or raises. *)
Definition preserves {X A} (φ : State → X) (m : M A) : Prop :=
  ∀ s, φ (m s).2 = φ s.

(** The test on line 92: the first part of the first candidate carries a
    function call. *)
Definition is_tool_request (r : GenerateContentResponse) : bool :=
  match first_part r with
  | Ok part => bool_decide (is_Some (function_call part))
  | Err _ => false
  end.

(** A field of the POST body that is absent or the empty string. *)
Definition missing_or_empty (v : option string) : Prop :=
  v = None ∨ v = Some EmptyString.

Definition ts_lt (a b : string) : Prop := String.ltb a b = true.

Definition weather_url : string := "http://api.openweathermap.org/data/2.5/weather".

(** [s] with [evs] appended to its log. *)
Definition logged (s : State) (evs : list Event) : State :=
  {| table := table s; clock_reads := clock_reads s;
     store_requests := store_requests s; trace := trace s ++ evs |}.

(** Where an exception raised inside the try block of lines 90-102 ends up:
    the fallback to [response.text] for the two named classes, the caller
    for any other. *)
Definition after_except (r : GenerateContentResponse) (e : exn) (s : State)
    : Result string * State :=
  if index_or_attribute_error e then (text r, s) else (Err e, s).

(** The item line 83 writes for [request] when run from state [s]. *)
Definition user_item (w : World) (request : ChatRequest) (s : State) : Item :=
  {| UserID := userId request;
     Timestamp := isoformat (now w (clock_reads s));
     Sender := "USER"; Message := message request |}.

(** ** Sample collaborators, for running the model *)

Definition dquote : string := String (ascii_of_nat 34) EmptyString.

(** A plain serialiser standing in for [json.dumps]. *)
Fixpoint render_json (j : json) : string :=
  match j with
  | JNull => "null"
  | JBool b => if b then "true" else "false"
  | JNumber n => n
  | JString s => dquote +:+ s +:+ dquote
  | JArray l => "[" +:+ foldr (λ x acc, render_json x +:+ "," +:+ acc) "]" l
  | JObject l =>
      "{" +:+ foldr (λ kv acc, dquote +:+ kv.1 +:+ dquote +:+ ":" +:+
                               render_json kv.2 +:+ "," +:+ acc) "}" l
  end.

Definition paris_weather : json :=
  JObject [("name", JString "Paris");
           ("main", JObject [("temp", JNumber "18.2")]);
           ("weather", JArray [JObject [("description", JString "clear sky")]])].

Definition text_reply (t : string) : GenerateContentResponse :=
  {| candidates :=
       [{| content := Some {| parts := [{| part_text := Some t;
                                           function_call := None |}] |} |}];
     text := Ok t |}.

Definition tool_reply (location unit : string) : GenerateContentResponse :=
  {| candidates :=
       [{| content := Some {| parts :=
             [{| part_text := None;
                 function_call :=
                   Some {| fc_name := "get_weather";
                           args := {[ "location" := location; "unit" := unit ]} |}
              |}] |} |}];
     text := Err (ValueError "the response has no text part") |}.


Definition clock_forward (k : nat) : datetime :=
  {| year := 2024; month := 1; day := 2; hour := 3; minute := 4;
     second := 10 + k; microsecond := 0 |}.

(** A wall clock that is set back between two readings. *)
Definition clock_set_back (k : nat) : datetime :=
  {| year := 2024; month := 1; day := 2; hour := 3; minute := 4;
     second := 10 - k; microsecond := 0 |}.

(** A model that answers [first] to a user message and a sentence quoting
    the tool result once it is given one. *)
Definition sample_world (clock : nat → datetime) (fault : nat → option exn)
    (fetch : Fetch) (first : GenerateContentResponse) : World :=
  {| now := clock;
     store_fault := fault;
     query_order := λ items, items;
     query_order_perm := λ items, Permutation_refl items;
     requests_get := λ _ _, fetch;
     generate_content := λ contents,
       match last contents with
       | Some (FunctionResponseContent _ data) => Ok (text_reply ("Report: " +:+ data))
       | _ => Ok first
       end;
     json_dumps := render_json |}.

Definition no_fault : nat → option exn := λ _, None.

Definition paris_fetch : Fetch := FetchReplied 200 "OK" (JsonBody paris_weather).

Definition configured : Globals :=
  module_globals {[ "GEMINI_API_KEY" := "gk"; "OPENWEATHER_API_KEY" := "wk";
                    "CHAT_HISTORY_TABLE_NAME" := "ChatHistory" ]}.

Definition unconfigured : Globals :=
  module_globals {[ "GEMINI_API_KEY" := "gk"; "OPENWEATHER_API_KEY" := "wk" ]}.

Definition empty_state : State :=
  {| table := ∅; clock_reads := 0; store_requests := 0; trace := [] |}.

Definition hello : ChatRequest := {| userId := "u1"; message := "hello" |}.

(** The third table request of the run (the BOT write) is throttled. *)
Definition bot_write_fault (k : nat) : option exn :=
  if decide (k = 2) then Some (ClientError "ProvisionedThroughputExceededException")
  else None.

(** A 200 answer whose JSON body has none of the expected fields. *)
Definition bare_fetch : Fetch :=
  FetchReplied 200 "OK" (JsonBody (JObject [("cod", JNumber "200")])).

(** The state after lines 80-88 of a first turn of [hello] on an empty
    table, and the session as it then stands, for a first reply [r]. *)
Definition hello_item : Item :=
  {| UserID := "u1"; Timestamp := "2024-01-02T03:04:10+00:00";
     Sender := "USER"; Message := "hello" |}.

Definition hello_contents : list ChatContent :=
  [TextContent "user" "hello"; TextContent "user" "hello"].

Definition hello_opened : State :=
  {| table := {[ ("u1", "2024-01-02T03:04:10+00:00") := ("USER", "hello") ]};
     clock_reads := 1; store_requests := 2;
     trace := [EvPutItem hello_item; EvQuery "u1" 5; EvSendMessage hello_contents] |}.

Definition hello_chat (r : GenerateContentResponse) : list ChatContent :=
  hello_contents ++ [ModelContent r].

(** What [get_weather] returns for [paris_weather] in celsius. *)
Definition paris_report : string :=
  render_json (JObject [("location", JString "Paris");
                        ("temperature", JNumber "18.2");
                        ("unit", JString "celsius");
                        ("conditions", JString "clear sky")]).

Definition paris_world : World :=
  sample_world clock_forward no_fault paris_fetch (tool_reply "Paris" "celsius").

(** A table that already holds three messages of [u1] and one of [u2]. *)
Definition old_question : Item :=
  {| UserID := "u1"; Timestamp := "2024-01-01T09:00:00+00:00";
     Sender := "USER"; Message := "hi" |}.

Definition old_answer : Item :=
  {| UserID := "u1"; Timestamp := "2024-01-01T09:00:02.500000+00:00";
     Sender := "BOT"; Message := "Hello!" |}.

Definition later_question : Item :=
  {| UserID := "u1"; Timestamp := "2024-01-01T10:30:00+00:00";
     Sender := "USER"; Message := "rain today?" |}.

Definition busy_state : State :=
  {| table :=
       {[ ("u1", "2024-01-01T10:30:00+00:00") := ("USER", "rain today?");
          ("u2", "2024-01-01T09:30:00+00:00") := ("USER", "bonjour");
          ("u1", "2024-01-01T09:00:00+00:00") := ("USER", "hi");
          ("u1", "2024-01-01T09:00:02.500000+00:00") := ("BOT", "Hello!") ]};
     clock_reads := 0; store_requests := 0; trace := [] |}.

(** ** Further observations and sample collaborators *)

Definition is_send_message (ev : Event) : bool :=
  match ev with EvSendMessage _ => true | _ => false end.

(** How many times the model was called. *)
Definition model_calls (tr : list Event) : nat :=
  length (filter (λ ev, is_send_message ev = true) tr).

Definition sends (s : State) : nat := model_calls (trace s).


(** The first table request of the run (the USER write) fails. *)
Definition user_write_fault (k : nat) : option exn :=
  if decide (k = 0) then Some (ClientError "ResourceNotFoundException") else None.

(** The second table request of the run (the history query) fails. *)
Definition query_fault (k : nat) : option exn :=
  if decide (k = 1) then Some (ClientError "AccessDeniedException") else None.

(** The provider cannot be reached. *)
Definition timeout_fetch : Fetch := FetchFailed "Connection timed out".

(** A 200 answer with an empty [weather] array. *)
Definition no_conditions_fetch : Fetch :=
  FetchReplied 200 "OK"
    (JsonBody (JObject [("name", JString "Paris");
                        ("main", JObject [("temp", JNumber "18.2")]);
                        ("weather", JArray [])])).

Definition paris_call : FunctionCall :=
  {| fc_name := "get_weather";
     args := {[ "location" := "Paris"; "unit" := "celsius" ]} |}.

Definition paris_part : Part :=
  {| part_text := None; function_call := Some paris_call |}.






(** A table that hands back the items of a Query oldest first. *)
Definition reversing_world : World :=
  {| now := clock_forward;
     store_fault := no_fault;
     query_order := reverse;
     query_order_perm := reverse_Permutation;
     requests_get := λ _ _, paris_fetch;
     generate_content := λ _, Ok (text_reply "Hi");
     json_dumps := render_json |}.


(** * Properties *)

(** ** The sort on line 71 *)

Section sorting.

Global Instance ts_le_preorder : PreOrder ts_le.
Proof.
  split.
  - intros x. unfold ts_le. reflexivity.
  - intros x y z. unfold ts_le. apply transitivity.
Qed.

Global Instance ts_le_total : Total ts_le.
Proof. intros x y. unfold ts_le. apply total, _. Qed.

Lemma insert_by_timestamp_perm x l : insert_by_timestamp x l ≡ₚ x :: l.
Proof.
  induction l as [|y l IH]; simpl; [done|].
  case_decide; [done|]. rewrite IH. apply Permutation_swap.
Qed.

Lemma insert_by_timestamp_sorted x l :
  StronglySorted ts_le l → StronglySorted ts_le (insert_by_timestamp x l).
Proof.
  induction 1 as [|y l Hl IH Hy]; simpl.
  - repeat constructor.
  - case_decide as Hxy.
    + constructor; [by constructor|].
      constructor; [done|].
      eapply Forall_impl; [exact Hy|]. intros z Hz. by etrans.
    + constructor; [done|].
      rewrite insert_by_timestamp_perm. constructor; [|done].
      by destruct (total ts_le x y).
Qed.

Lemma sorted_by_timestamp_perm items : sorted_by_timestamp items ≡ₚ items.
Proof.
  induction items as [|x l IH]; simpl; [done|].
  by rewrite insert_by_timestamp_perm, IH.
Qed.

Lemma sorted_by_timestamp_sorted items :
  StronglySorted ts_le (sorted_by_timestamp items).
Proof.
  induction items as [|x l IH]; simpl; [constructor|].
  by apply insert_by_timestamp_sorted.
Qed.

Lemma sorted_by_timestamp_length items :
  length (sorted_by_timestamp items) = length items.
Proof. by rewrite sorted_by_timestamp_perm. Qed.

Lemma elem_of_sorted_by_timestamp x items :
  x ∈ sorted_by_timestamp items ↔ x ∈ items.
Proof. by rewrite sorted_by_timestamp_perm. Qed.

Lemma query_items_length t user_id limit :
  length (query_items t user_id limit) ≤ limit.
Proof. unfold query_items. rewrite length_take. lia. Qed.

End sorting.

(** ** Timestamps sort like the instants they stand for *)

Section isoformat_order.

Lemma ascii_compare_refl c : Ascii.compare c c = Eq.
Proof. unfold Ascii.compare. apply N.compare_refl. Qed.

Lemma string_compare_refl s : String.compare s s = Eq.
Proof. induction s as [|c s IH]; simpl; [done|]. by rewrite ascii_compare_refl. Qed.

Lemma string_compare_cons c s t :
  String.compare (String c s) (String c t) = String.compare s t.
Proof. simpl. by rewrite ascii_compare_refl. Qed.

Lemma digit_compare a b :
  a < 10 → b < 10 → Ascii.compare (digit a) (digit b) = (a ?= b).
Proof.
  intros Ha Hb.
  do 10 (destruct a as [|a]; [do 10 (destruct b as [|b]; [reflexivity|]); lia|]).
  lia.
Qed.

Lemma compare_div_mod p a b :
  0 < p →
  (a ?= b) = match a / p ?= b / p with
             | Eq => a `mod` p ?= b `mod` p
             | c => c
             end.
Proof.
  intros Hp.
  pose proof (Nat.div_mod_eq a p) as Ea. pose proof (Nat.div_mod_eq b p) as Eb.
  pose proof (Nat.mod_upper_bound a p) as Ua.
  pose proof (Nat.mod_upper_bound b p) as Ub.
  destruct (Nat.compare_spec (a / p) (b / p)) as [E|L|L].
  - rewrite Ea, Eb at 1. rewrite E.
    destruct (Nat.compare_spec (a `mod` p) (b `mod` p));
      [apply Nat.compare_eq_iff | apply Nat.compare_lt_iff | apply Nat.compare_gt_iff];
      lia.
  - apply Nat.compare_lt_iff. nia.
  - apply Nat.compare_gt_iff. nia.
Qed.

Lemma pow10_pos w : 0 < 10 ^ w.
Proof. induction w; simpl; lia. Qed.

Lemma zero_pad_compare w : ∀ a b s t,
  a < 10 ^ w → b < 10 ^ w →
  String.compare (zero_pad w a +:+ s) (zero_pad w b +:+ t) =
    match a ?= b with
    | Eq => String.compare s t
    | c => c
    end.
Proof.
  induction w as [|w IH]; intros a b s t Ha Hb.
  - simpl in Ha, Hb. assert (a = 0) as -> by lia. assert (b = 0) as -> by lia.
    done.
  - pose proof (pow10_pos w) as Hp.
    assert (a / 10 ^ w < 10) as Hqa.
    { apply Nat.Div0.div_lt_upper_bound. simpl in Ha. lia. }
    assert (b / 10 ^ w < 10) as Hqb.
    { apply Nat.Div0.div_lt_upper_bound. simpl in Hb. lia. }
    rewrite (compare_div_mod (10 ^ w) a b Hp).
    change (zero_pad (S w) a +:+ s) with
      (String (digit (a / 10 ^ w)) (zero_pad w (a `mod` 10 ^ w) +:+ s)).
    change (zero_pad (S w) b +:+ t) with
      (String (digit (b / 10 ^ w)) (zero_pad w (b `mod` 10 ^ w) +:+ t)).
    cbn [String.compare]. rewrite digit_compare by done.
    destruct (a / 10 ^ w ?= b / 10 ^ w); [|done..].
    apply IH; apply Nat.mod_upper_bound; lia.
Qed.

Lemma fraction_compare a b :
  a < 10 ^ 6 → b < 10 ^ 6 →
  String.compare
    ((if decide (a = 0) then EmptyString else "." +:+ zero_pad 6 a) +:+ "+00:00")
    ((if decide (b = 0) then EmptyString else "." +:+ zero_pad 6 b) +:+ "+00:00")
  = (a ?= b).
Proof.
  intros Ha Hb. destruct (decide (a = 0)) as [->|Na], (decide (b = 0)) as [->|Nb].
  - done.
  - destruct b; [done|]. reflexivity.
  - destruct a; [done|]. reflexivity.
  - change (("." +:+ zero_pad 6 a) +:+ "+00:00")
      with (String "." (zero_pad 6 a +:+ "+00:00")).
    change (("." +:+ zero_pad 6 b) +:+ "+00:00")
      with (String "." (zero_pad 6 b +:+ "+00:00")).
    rewrite string_compare_cons, zero_pad_compare by done.
    by destruct (a ?= b).
Qed.

Lemma isoformat_compare a b :
  valid_datetime a → valid_datetime b →
  String.compare (isoformat a) (isoformat b) = datetime_compare a b.
Proof.
  intros (Hy & Hm & Hd & Hh & Hmi & Hs & Hu) (Hy' & Hm' & Hd' & Hh' & Hmi' & Hs' & Hu').
  unfold isoformat, datetime_compare.
  repeat first
    [ rewrite zero_pad_compare by first [lia | simpl; lia]
    | match goal with
      | |- context [String.compare (?c +:+ ?s) (?c +:+ ?t)] =>
          change (String.compare (c +:+ s) (c +:+ t))
            with (String.compare s t)
      end ].
  rewrite fraction_compare by done.
  reflexivity.
Qed.

(** An earlier instant gets a strictly smaller sort key. *)
Lemma isoformat_earlier a b :
  valid_datetime a → valid_datetime b → earlier a b →
  String.ltb (isoformat a) (isoformat b) = true.
Proof.
  intros Ha Hb E. unfold String.ltb. by rewrite isoformat_compare, E.
Qed.

End isoformat_order.

Ltac valid_datetime_by_computation :=
  unfold valid_datetime; repeat split; apply Nat.leb_le; vm_compute; reflexivity.

(** ** Running the monad *)

Lemma bind_ok {A B} (m : M A) (f : A → M B) s a s' :
  m s = (Ok a, s') → (m ≫= f) s = f a s'.
Proof. intros E. unfold mbind, M_bind. by rewrite E. Qed.

Lemma bind_err {A B} (m : M A) (f : A → M B) s e s' :
  m s = (Err e, s') → (m ≫= f) s = (Err e, s').
Proof. intros E. unfold mbind, M_bind. by rewrite E. Qed.

Ltac run_m :=
  unfold mbind, M_bind, mret, M_ret, raise, lift, emit, try_except in *.

Lemma module_globals_unbound environ :
  truthy (environ !! "CHAT_HISTORY_TABLE_NAME") = false →
  chat_history_table (module_globals environ) = Unbound.
Proof.
  unfold module_globals. simpl.
  destruct (environ !! "CHAT_HISTORY_TABLE_NAME") as [name|]; [|done].
  by intros ->.
Qed.

Lemma module_globals_bound environ :
  truthy (environ !! "CHAT_HISTORY_TABLE_NAME") = true →
  ∃ name, chat_history_table (module_globals environ) = Bound name.
Proof.
  unfold module_globals. simpl.
  destruct (environ !! "CHAT_HISTORY_TABLE_NAME") as [name|]; [|done].
  intros ->. by exists name.
Qed.

Lemma save_message_unbound w g user_id sender message s :
  chat_history_table g = Unbound →
  save_message w g user_id sender message s =
    (Err (NameError "chat_history_table"), s).
Proof. intros E. unfold save_message, read_chat_history_table. by rewrite E. Qed.

Lemma get_recent_history_unbound w g user_id limit s :
  chat_history_table g = Unbound →
  get_recent_history w g user_id limit s =
    (Err (NameError "chat_history_table"), s).
Proof. intros E. unfold get_recent_history, read_chat_history_table. by rewrite E. Qed.

(** ** Degraded mode *)

(** C1 (the code departs from it): with no table name in the environment
    the module never binds [chat_history_table], so the guard of
    [save_message] and [get_recent_history] raises NameError instead of
    returning; POST /chat and GET /history both answer 500. *)
Theorem unconfigured_store_raises_name_error w environ :
  truthy (environ !! "CHAT_HISTORY_TABLE_NAME") = false →
  let g := module_globals environ in
  (∀ user_id sender message s,
     save_message w g user_id sender message s =
       (Err (NameError "chat_history_table"), s)) ∧
  (∀ user_id limit s,
     get_recent_history w g user_id limit s =
       (Err (NameError "chat_history_table"), s)) ∧
  (∀ u m s, str_truthy u = true → str_truthy m = true →
     post_chat w g {| body_userId := Some u; body_message := Some m |} s =
       (HttpError 500, s)) ∧
  (∀ user_id s, get_history w g user_id s = (HttpError 500, s)).
Proof.
  intros Hunset g. pose proof (module_globals_unbound _ Hunset) as Hg.
  fold g in Hg. repeat split.
  - intros. by apply save_message_unbound.
  - intros. by apply get_recent_history_unbound.
  - intros u m s Hu Hm. unfold post_chat. simpl.
    assert (chat_with_gemini w g {| userId := u; message := m |} s =
            (Err (NameError "chat_history_table"), s)) as ->; [|done].
    do 2 apply bind_err. unfold chat_open. simpl. rewrite Hu, Hm. simpl.
    apply bind_err. by apply save_message_unbound.
  - intros user_id s. unfold get_history, get_full_history.
    by rewrite get_recent_history_unbound.
Qed.

Lemma unconfigured_store_raises_name_error_witness :
  post_chat (sample_world clock_forward no_fault paris_fetch (text_reply "Hi"))
    unconfigured {| body_userId := Some "u1"; body_message := Some "hello" |}
    empty_state = (HttpError 500, empty_state) ∧
  get_history (sample_world clock_forward no_fault paris_fetch (text_reply "Hi"))
    unconfigured "u1" empty_state = (HttpError 500, empty_state).
Proof.
  pose proof (unconfigured_store_raises_name_error
    (sample_world clock_forward no_fault paris_fetch (text_reply "Hi"))
    {[ "GEMINI_API_KEY" := "gk"; "OPENWEATHER_API_KEY" := "wk" ]} eq_refl)
    as (_ & _ & Hpost & Hget).
  split; [apply Hpost; reflexivity | apply Hget].
Defined.

(** ** Request validation *)

(** C9: a POST /chat whose userId or message is missing or empty is answered
    with a client error (400 from the handler when both fields are present,
    422 from the body validation when one is absent) and leaves the table
    and the log of outbound calls untouched. *)
Theorem invalid_request_rejected_without_writes w g body s :
  missing_or_empty (body_userId body) ∨ missing_or_empty (body_message body) →
  ∃ status,
    post_chat w g body s = (HttpError status, s) ∧
    (400 ≤ status < 500)%Z ∧
    (is_Some (body_userId body) → is_Some (body_message body) → status = 400%Z).
Proof.
  intros H. unfold post_chat.
  destruct (body_userId body) as [u|], (body_message body) as [m|];
    try (exists 422%Z; repeat split; try lia; by intros [] []).
  exists 400%Z. split; [|split; [lia|done]].
  unfold chat_with_gemini, chat_answer, chat_open. simpl.
  assert (negb (str_truthy m) || negb (str_truthy u) = true) as ->.
  { destruct H as [[?|?]|[?|?]]; simplify_eq; simpl; [apply orb_true_r | done]. }
  done.
Qed.

Lemma invalid_request_rejected_without_writes_witness :
  ∃ status,
    post_chat (sample_world clock_forward no_fault paris_fetch (text_reply "Hi"))
      configured {| body_userId := Some "u1"; body_message := Some EmptyString |}
      empty_state = (HttpError status, empty_state) ∧
    (400 ≤ status < 500)%Z ∧
    (is_Some (Some "u1") → is_Some (Some EmptyString) → status = 400%Z).
Proof.
  apply (invalid_request_rejected_without_writes
    (sample_world clock_forward no_fault paris_fetch (text_reply "Hi"))
    configured {| body_userId := Some "u1"; body_message := Some EmptyString |}
    empty_state).
  right. right. reflexivity.
Defined.

(** ** The final write *)

(** C2, as the code has it: once the answer text is computed, the handler's
    outcome is the outcome of the BOT write.  If the write returns, the
    caller gets [{response: response_text}]; if it raises, the exception is
    what the caller gets. *)
Theorem answer_returned_only_if_bot_write_returns w g request s t s1 :
  chat_answer w g request s = (Ok t, s1) →
  (∀ e s2, save_message w g (userId request) "BOT" t s1 = (Err e, s2) →
     chat_with_gemini w g request s = (Err e, s2)) ∧
  (∀ s2, save_message w g (userId request) "BOT" t s1 = (Ok (), s2) →
     chat_with_gemini w g request s = (Ok {| response := t |}, s2)).
Proof.
  intros Ha. unfold chat_with_gemini. split.
  - intros e s2 Hs. rewrite (bind_ok _ _ _ _ _ Ha). by apply bind_err.
  - intros s2 Hs. rewrite (bind_ok _ _ _ _ _ Ha). by rewrite (bind_ok _ _ _ _ _ Hs).
Qed.

Lemma answer_returned_only_if_bot_write_returns_witness :
  chat_with_gemini
    (sample_world clock_forward no_fault paris_fetch (text_reply "Hi"))
    configured hello empty_state
  = (Ok {| response := "Hi" |},
     (save_message
        (sample_world clock_forward no_fault paris_fetch (text_reply "Hi"))
        configured "u1" "BOT" "Hi"
        (chat_answer
           (sample_world clock_forward no_fault paris_fetch (text_reply "Hi"))
           configured hello empty_state).2).2).
Proof.
  eapply (answer_returned_only_if_bot_write_returns
    (sample_world clock_forward no_fault paris_fetch (text_reply "Hi"))
    configured hello empty_state "Hi"); vm_compute; reflexivity.
Defined.

(** C2 as written fails: the model call succeeds and the answer text is
    computed, the BOT write is throttled, and the caller gets the write's
    exception (a 500), not the answer. *)
Lemma bot_write_failure_loses_answer :
  (chat_answer
     (sample_world clock_forward bot_write_fault paris_fetch (text_reply "Hi"))
     configured hello empty_state).1 = Ok "Hi" ∧
  (chat_with_gemini
     (sample_world clock_forward bot_write_fault paris_fetch (text_reply "Hi"))
     configured hello empty_state).1
    = Err (ClientError "ProvisionedThroughputExceededException") ∧
  (post_chat
     (sample_world clock_forward bot_write_fault paris_fetch (text_reply "Hi"))
     configured {| body_userId := Some "u1"; body_message := Some "hello" |}
     empty_state).1 = HttpError 500.
Proof. vm_compute. done. Qed.

(** ** The weather tool *)

Lemma logged_nil s : logged s [] = s.
Proof. destruct s. unfold logged. simpl. by rewrite app_nil_r. Qed.

Lemma logged_logged s l1 l2 : logged (logged s l1) l2 = logged s (l1 ++ l2).
Proof. unfold logged. simpl. by rewrite app_assoc. Qed.

(** Whatever it returns, [get_weather] logs its call and one HTTP GET, and
    touches nothing else. *)
Lemma get_weather_logs w g location unit s :
  (get_weather w g location unit s).2 =
    logged s [EvGetWeather location unit;
              EvHttpGet weather_url (weather_params g location unit)].
Proof.
  unfold get_weather, weather_report, raise_for_status, response_json.
  run_m. unfold logged. simpl. rewrite <- app_assoc. simpl.
  destruct (requests_get _ _ _) as [msg|code msg [bmsg|data]]; simpl; [done|..];
    case_decide; simpl; try done.
  repeat (match goal with
          | |- context [getitem ?d ?k] => destruct (getitem d k) as [?|[]]
          | |- context [getitem0 ?d] => destruct (getitem0 d) as [?|[]]
          end; simpl; try done).
Qed.

(** The soft failures: no answer, a 4xx or 5xx status, a body that is not
    JSON.  Each becomes the error payload. *)
Lemma get_weather_soft_failure w g location unit s :
  match requests_get w weather_url (weather_params g location unit) with
  | FetchFailed msg => (get_weather w g location unit s).1 = Ok (weather_error w msg)
  | FetchReplied code msg body =>
      ((400 ≤ code < 600)%Z →
         (get_weather w g location unit s).1 = Ok (weather_error w msg)) ∧
      (∀ bmsg, ¬ (400 ≤ code < 600)%Z → body = NotJson bmsg →
         (get_weather w g location unit s).1 = Ok (weather_error w bmsg))
  end.
Proof.
  unfold get_weather, raise_for_status, response_json. run_m. simpl.
  fold weather_url.
  destruct (requests_get _ _ _) as [msg|code msg body]; simpl; [done|].
  split.
  - intros H. by rewrite decide_True.
  - intros bmsg H ->. by rewrite decide_False.
Qed.

(** C4 (the code departs from it): the except clause of [get_weather] names
    RequestException only.  When the provider answers outside the 4xx/5xx
    range with a JSON body that lacks the [name] field, the lookup's
    exception leaves [get_weather]. *)
Theorem get_weather_raises_on_missing_field w g location unit s code msg data e :
  requests_get w weather_url (weather_params g location unit) =
    FetchReplied code msg (JsonBody data) →
  ¬ (400 ≤ code < 600)%Z →
  getitem data "name" = Err e →
  (get_weather w g location unit s).1 = Err e ∧
  (e = KeyError "name" ∨ e = TypeError).
Proof.
  intros Hf Hc He. split.
  - unfold get_weather, weather_report, raise_for_status, response_json.
    run_m. simpl. fold weather_url. rewrite Hf. simpl.
    rewrite decide_False by done. simpl. rewrite He. simpl.
    unfold getitem in He. destruct data; simplify_eq; try done.
    destruct (assoc _ _); by simplify_eq.
  - unfold getitem in He. destruct data; simplify_eq; auto.
    destruct (assoc _ _); simplify_eq; auto.
Qed.

Lemma get_weather_raises_on_missing_field_witness :
  (get_weather (sample_world clock_forward no_fault bare_fetch (text_reply "Hi"))
     configured (Some "Paris") "celsius" empty_state).1 = Err (KeyError "name") ∧
  (KeyError "name" = KeyError "name" ∨ KeyError "name" = TypeError).
Proof.
  apply (get_weather_raises_on_missing_field
    (sample_world clock_forward no_fault bare_fetch (text_reply "Hi"))
    configured (Some "Paris") "celsius" empty_state 200%Z "OK"
    (JObject [("cod", JNumber "200")])).
  - reflexivity.
  - lia.
  - reflexivity.
Defined.

(** The same input seen from POST /chat: the model asks for the weather, the
    provider's body lacks the fields, and the turn ends in a 500 with the
    USER message written and no BOT message. *)
Example missing_field_aborts_turn :
  (λ out : HttpResponse ChatResponse * State, (out.1, put_items (trace out.2)))
    (post_chat
       (sample_world clock_forward no_fault bare_fetch (tool_reply "Paris" "celsius"))
       configured {| body_userId := Some "u1"; body_message := Some "hello" |}
       empty_state)
  = (HttpError 500,
     [{| UserID := "u1"; Timestamp := "2024-01-02T03:04:10+00:00";
         Sender := "USER"; Message := "hello" |}]).
Proof. vm_compute. reflexivity. Qed.

(** ** What a computation leaves unchanged *)

Section frames.
Context {X : Type} (φ : State → X).

Lemma preserves_ret {A} (a : A) : preserves φ (mret a).
Proof. by intros s. Qed.

Lemma preserves_raise {A} e : preserves φ (@raise A e).
Proof. by intros s. Qed.

Lemma preserves_lift {A} (r : Result A) : preserves φ (lift r).
Proof. by intros s. Qed.

Lemma preserves_bind {A B} (m : M A) (f : A → M B) :
  preserves φ m → (∀ a, preserves φ (f a)) → preserves φ (m ≫= f).
Proof.
  intros Hm Hf s. unfold mbind, M_bind. specialize (Hm s).
  destruct (m s) as [[a|e] s1]; simpl in *; [|done].
  by rewrite Hf.
Qed.

Lemma preserves_try_except {A} (body : M A) handler :
  preserves φ body → (∀ e h, handler e = Some h → preserves φ h) →
  preserves φ (try_except body handler).
Proof.
  intros Hb Hh s. unfold try_except. specialize (Hb s).
  destruct (body s) as [[a|e] s1]; simpl in *; [done|].
  destruct (handler e) as [h|] eqn:E; [|done].
  by rewrite (Hh _ _ E).
Qed.

Lemma preserves_emit ev :
  (∀ s, φ (logged s [ev]) = φ s) → preserves φ (emit ev).
Proof. intros H s. apply H. Qed.

Lemma preserves_table_request {A} (w : World) (ev : Event)
    (answer : Table → A) (update : Table → Table) :
  (∀ s t, φ {| table := t; clock_reads := clock_reads s;
               store_requests := S (store_requests s);
               trace := trace s ++ [ev] |} = φ s) →
  preserves φ (table_request w ev answer update).
Proof.
  intros H s. unfold table_request. destruct (store_fault _ _); simpl; apply H.
Qed.

End frames.


Lemma put_items_app l1 l2 : put_items (l1 ++ l2) = put_items l1 ++ put_items l2.
Proof. unfold put_items. apply omap_app. Qed.


Lemma send_message_run w chat c s :
  send_message w chat c s =
    (match generate_content w (chat ++ [c]) with
     | Ok r => Ok (r, (chat ++ [c]) ++ [ModelContent r])
     | Err e => Err e
     end, logged s [EvSendMessage (chat ++ [c])]).
Proof.
  unfold send_message. run_m. simpl.
  by destruct (generate_content _ _).
Qed.

Lemma save_message_bound w g t user_id sender message s :
  chat_history_table g = Bound t →
  save_message w g user_id sender message s =
    put_item w {| UserID := user_id;
                  Timestamp := isoformat (now w (clock_reads s));
                  Sender := sender; Message := message |}
      {| table := table s; clock_reads := S (clock_reads s);
         store_requests := store_requests s; trace := trace s |}.
Proof.
  intros E. unfold save_message, read_chat_history_table. by rewrite E.
Qed.


Lemma query_preserves {X} (φ : State → X) w user_id limit :
  (∀ s t, φ {| table := t; clock_reads := clock_reads s;
               store_requests := S (store_requests s);
               trace := trace s ++ [EvQuery user_id limit] |} = φ s) →
  preserves φ (query w user_id limit).
Proof.
  intros H. unfold query. case_decide; [apply preserves_raise|].
  by apply preserves_table_request.
Qed.

Lemma get_recent_history_preserves {X} (φ : State → X) w g user_id limit :
  (∀ s t, φ {| table := t; clock_reads := clock_reads s;
               store_requests := S (store_requests s);
               trace := trace s ++ [EvQuery user_id limit] |} = φ s) →
  preserves φ (get_recent_history w g user_id limit).
Proof.
  intros H. unfold get_recent_history, read_chat_history_table.
  apply preserves_bind.
  - destruct (chat_history_table g); [apply preserves_raise | apply preserves_ret].
  - intros t. simpl. apply preserves_bind; [by apply query_preserves|].
    intros items. apply preserves_ret.
Qed.


Lemma writes_query_frame user_id limit s t :
  writes_and_clock {| table := t; clock_reads := clock_reads s;
           store_requests := S (store_requests s);
           trace := trace s ++ [EvQuery user_id limit] |} = writes_and_clock s.
Proof.
  unfold writes_and_clock. simpl. rewrite put_items_app. simpl.
  by rewrite app_nil_r.
Qed.


Lemma send_message_writes w chat c :
  preserves writes_and_clock (send_message w chat c).
Proof.
  intros s. rewrite send_message_run. unfold writes_and_clock. simpl.
  rewrite put_items_app. simpl. by rewrite app_nil_r.
Qed.


(** ** Reading the model's reply (lines 90-102) *)

Lemma first_part_error r e :
  first_part r = Err e → e = IndexError ∨ e = AttributeError.
Proof.
  unfold first_part. intros H.
  destruct (candidates r) as [|c ?]; [by left; simplify_eq|].
  destruct (content c) as [ct|]; [|by right; simplify_eq].
  destruct (parts ct); [by left; simplify_eq | done].
Qed.

Lemma response_text_of_unparseable w g chat r e s :
  first_part r = Err e → response_text_of w g chat r s = (text r, s).
Proof.
  intros H. unfold response_text_of. run_m. rewrite H.
  by destruct (first_part_error _ _ H) as [-> | ->].
Qed.

Lemma response_text_of_plain w g chat r part s :
  first_part r = Ok part → function_call part = None →
  response_text_of w g chat r s = (text r, s).
Proof.
  intros H Hfc. unfold response_text_of. run_m. rewrite H, Hfc.
  by destruct (text r) as [t|[]].
Qed.

Lemma response_text_of_tool w g chat r part fc s :
  first_part r = Ok part → function_call part = Some fc →
  response_text_of w g chat r s =
    match get_weather w g (args fc !! "location") default_unit s with
    | (Err e, s1) => after_except r e s1
    | (Ok data, s1) =>
        let contents := chat ++ [FunctionResponseContent "get_weather" data] in
        let s2 := logged s1 [EvSendMessage contents] in
        match generate_content w contents with
        | Err e => after_except r e s2
        | Ok r2 =>
            match text r2 with
            | Ok t => (Ok t, s2)
            | Err e => after_except r e s2
            end
        end
    end.
Proof.
  intros H Hfc. unfold response_text_of, after_except.
  unfold mbind, M_bind, try_except. unfold lift at 1. rewrite H, Hfc.
  destruct (get_weather _ _ _ _ _) as [[data|e] s1].
  - rewrite send_message_run. simpl.
    destruct (generate_content _ _) as [r2|e]; simpl.
    + unfold lift. destruct (text r2) as [t|e]; [done|].
      by destruct (index_or_attribute_error e).
    + unfold lift. by destruct (index_or_attribute_error e).
  - unfold lift. by destruct (index_or_attribute_error e).
Qed.




(** ** The tool round trip *)

(** C3 (the code departs from it): line 94 passes [location] only, so
    [get_weather] always runs with its default unit and the outbound query
    always asks for metric units, whatever [unit] the model's request
    carries. *)
Theorem tool_call_drops_requested_unit w g chat r part fc s :
  first_part r = Ok part → function_call part = Some fc →
  ∃ rest,
    trace (response_text_of w g chat r s).2 =
      trace s ++
      EvGetWeather (args fc !! "location") "celsius" ::
      EvHttpGet weather_url
        [("q", args fc !! "location"); ("appid", WEATHER_API_KEY g);
         ("units", Some "metric")] :: rest.
Proof.
  intros H Hfc. rewrite (response_text_of_tool _ _ _ _ _ _ _ H Hfc).
  pose proof (get_weather_logs w g (args fc !! "location") default_unit s) as Hl.
  destruct (get_weather _ _ _ _ _) as [[data|e] s1]; simpl in Hl; subst s1.
  - exists [EvSendMessage (chat ++ [FunctionResponseContent "get_weather" data])].
    simpl.
    assert (∀ (x : Result string * State) s2, x.2 = s2 → trace x.2 = trace s2)
      as Htr by (by intros ? ? ->).
    destruct (generate_content _ _) as [r2|e];
      [destruct (text r2) as [t|e]|]; unfold after_except;
      try destruct (index_or_attribute_error e); simpl;
      by rewrite <- app_assoc.
  - exists []. unfold after_except. by destruct (index_or_attribute_error e).
Qed.

Lemma tool_call_drops_requested_unit_witness :
  ∃ rest,
    trace (response_text_of
             (sample_world clock_forward no_fault paris_fetch
                (tool_reply "Paris" "fahrenheit"))
             configured (hello_chat (tool_reply "Paris" "fahrenheit"))
             (tool_reply "Paris" "fahrenheit") hello_opened).2 =
      trace hello_opened ++
      EvGetWeather (Some "Paris") "celsius" ::
      EvHttpGet weather_url
        [("q", Some "Paris"); ("appid", Some "wk"); ("units", Some "metric")] :: rest.
Proof.
  pose proof (tool_call_drops_requested_unit
    (sample_world clock_forward no_fault paris_fetch (tool_reply "Paris" "fahrenheit"))
    configured (hello_chat (tool_reply "Paris" "fahrenheit"))
    (tool_reply "Paris" "fahrenheit")
    {| part_text := None;
       function_call :=
         Some {| fc_name := "get_weather";
                 args := {[ "location" := "Paris"; "unit" := "fahrenheit" ]} |} |}
    {| fc_name := "get_weather";
       args := {[ "location" := "Paris"; "unit" := "fahrenheit" ]} |}
    hello_opened eq_refl eq_refl) as H.
  vm_compute in H. vm_compute. exact H.
Defined.

Lemma after_except_state r e s : (after_except r e s).2 = s.
Proof. unfold after_except. by destruct (index_or_attribute_error e). Qed.

Lemma is_tool_request_true r :
  is_tool_request r = true ↔
  ∃ part fc, first_part r = Ok part ∧ function_call part = Some fc.
Proof.
  unfold is_tool_request. split.
  - destruct (first_part r) as [part|]; [|done].
    intros [fc Hfc]%bool_decide_eq_true. by exists part, fc.
  - intros (part & fc & -> & Hfc). apply bool_decide_eq_true. by rewrite Hfc.
Qed.

(** The state [response_text_of] ends in: untouched unless the reply asks
    for the tool, and then [get_weather]'s log plus at most the second
    call of the model. *)
Lemma response_text_of_state w g chat r s :
  (is_tool_request r = false ∧ (response_text_of w g chat r s).2 = s) ∨
  (∃ fc rest,
     is_tool_request r = true ∧ weather_calls rest = 0 ∧
     put_items rest = [] ∧
     (response_text_of w g chat r s).2 =
       logged s (EvGetWeather (args fc !! "location") default_unit ::
                 EvHttpGet weather_url
                   (weather_params g (args fc !! "location") default_unit) :: rest)).
Proof.
  destruct (first_part r) as [part|e] eqn:Hp.
  - destruct (function_call part) as [fc|] eqn:Hfc.
    + right.
      assert (is_tool_request r = true) as Ht.
      { apply is_tool_request_true. by exists part, fc. }
      rewrite (response_text_of_tool _ _ _ _ _ _ _ Hp Hfc).
      pose proof (get_weather_logs w g (args fc !! "location") default_unit s) as Hl.
      destruct (get_weather _ _ _ _ _) as [[data|e] s1]; simpl in Hl; subst s1.
      * exists fc, [EvSendMessage (chat ++ [FunctionResponseContent "get_weather" data])].
        repeat split; [done..|]. simpl. rewrite logged_logged. simpl.
        destruct (generate_content _ _) as [r2|e];
          [destruct (text r2) as [t|e]|]; by rewrite ?after_except_state.
      * exists fc, []. repeat split; [done..|]. by rewrite after_except_state.
    + left. rewrite (response_text_of_plain _ _ _ _ _ _ Hp Hfc). split; [|done].
      unfold is_tool_request. rewrite Hp, Hfc. by apply bool_decide_eq_false; intros [].
  - left. rewrite (response_text_of_unparseable _ _ _ _ _ _ Hp). split; [|done].
    unfold is_tool_request. by rewrite Hp.
Qed.





(** ** The two writes of a turn *)

Lemma save_message_writes w g t user_id sender message s :
  chat_history_table g = Bound t →
  writes_and_clock (save_message w g user_id sender message s).2 =
    (put_items (trace s) ++
       [{| UserID := user_id; Timestamp := isoformat (now w (clock_reads s));
           Sender := sender; Message := message |}],
     S (clock_reads s)).
Proof.
  intros Hg. rewrite (save_message_bound _ _ _ _ _ _ _ Hg).
  unfold put_item, table_request, writes_and_clock. simpl.
  destruct (store_fault _ _); simpl; by rewrite put_items_app.
Qed.

Lemma response_text_of_writes w g chat r :
  preserves writes_and_clock (response_text_of w g chat r).
Proof.
  intros s.
  destruct (response_text_of_state w g chat r s)
    as [[_ ->]|(fc & rest & _ & _ & Hrest & ->)]; [done|].
  unfold writes_and_clock, logged. simpl. rewrite put_items_app. simpl.
  by rewrite Hrest, app_nil_r.
Qed.

Lemma chat_open_writes w g t request s x s1 :
  chat_history_table g = Bound t →
  chat_open w g request s = (Ok x, s1) →
  writes_and_clock s1 =
    (put_items (trace s) ++
       [{| UserID := userId request; Timestamp := isoformat (now w (clock_reads s));
           Sender := "USER"; Message := message request |}],
     S (clock_reads s)).
Proof.
  intros Hg. unfold chat_open. destruct (_ || _); [done|].
  unfold mbind at 1, M_bind at 1.
  pose proof (save_message_writes w g t (userId request) "USER"
                (message request) s Hg) as Hs.
  destruct (save_message _ _ _ _ _ _) as [[[]|e] sa]; [|done].
  simpl in Hs. rewrite <- Hs. intros Ho.
  pose proof (preserves_bind writes_and_clock
    (get_recent_history w g (userId request) 5)
    (λ history, send_message w (history_entry <$> history)
                  (TextContent "user" (message request)))) as Hp.
  rewrite <- (Hp (get_recent_history_preserves _ _ _ _ _ (writes_query_frame _ _))
                 (λ h, send_message_writes _ _ _) sa).
  by rewrite Ho.
Qed.

(** C7, as the code has it: a turn that returns 200 with the table
    configured has issued exactly two [put_item] requests, the USER item
    and then the BOT item, each stamped with the reading of the clock taken
    for it; the BOT stamp sorts strictly after the USER stamp when the
    second reading is a later instant than the first. *)
Theorem successful_turn_writes_user_then_bot w g t request s resp s' :
  chat_history_table g = Bound t →
  chat_with_gemini w g request s = (Ok resp, s') →
  put_items (trace s') =
    put_items (trace s) ++
      [{| UserID := userId request;
          Timestamp := isoformat (now w (clock_reads s));
          Sender := "USER"; Message := message request |};
       {| UserID := userId request;
          Timestamp := isoformat (now w (S (clock_reads s)));
          Sender := "BOT"; Message := response resp |}] ∧
  (valid_datetime (now w (clock_reads s)) →
   valid_datetime (now w (S (clock_reads s))) →
   earlier (now w (clock_reads s)) (now w (S (clock_reads s))) →
   ts_lt (isoformat (now w (clock_reads s)))
         (isoformat (now w (S (clock_reads s))))).
Proof.
  intros Hg Hrun. split; [|by apply isoformat_earlier].
  unfold chat_with_gemini in Hrun. unfold mbind at 1, M_bind at 1 in Hrun.
  destruct (chat_answer w g request s) as [[text_|e] s2] eqn:Ha; [|done].
  assert (writes_and_clock s2 =
            (put_items (trace s) ++
               [{| UserID := userId request;
                   Timestamp := isoformat (now w (clock_reads s));
                   Sender := "USER"; Message := message request |}],
             S (clock_reads s))) as Hw.
  { unfold chat_answer in Ha. unfold mbind, M_bind in Ha.
    destruct (chat_open w g request s) as [[[r chat]|e] s1] eqn:Ho; [|done].
    rewrite <- (chat_open_writes _ _ _ _ _ _ _ Hg Ho).
    rewrite <- (response_text_of_writes w g chat r s1). by rewrite Ha. }
  unfold mbind, M_bind in Hrun.
  pose proof (save_message_writes w g t (userId request) "BOT" text_ s2 Hg) as Hs.
  destruct (save_message _ _ _ _ _ _) as [[[]|e] s3]; [|done].
  unfold mret, M_ret in Hrun. simplify_eq. simpl in *.
  unfold writes_and_clock in *. simplify_eq.
  repeat match goal with
         | H : put_items _ = _ |- _ => rewrite H; clear H
         | H : clock_reads _ = _ |- _ => rewrite H; clear H
         end.
  by rewrite <- app_assoc.
Qed.

Lemma successful_turn_writes_user_then_bot_witness :
  put_items (trace (chat_with_gemini paris_world configured hello empty_state).2) =
    [{| UserID := "u1"; Timestamp := isoformat (clock_forward 0);
        Sender := "USER"; Message := "hello" |};
     {| UserID := "u1"; Timestamp := isoformat (clock_forward 1);
        Sender := "BOT"; Message := "Report: " +:+ paris_report |}] ∧
  ts_lt (isoformat (clock_forward 0)) (isoformat (clock_forward 1)).
Proof.
  destruct (successful_turn_writes_user_then_bot paris_world configured
              "ChatHistory" hello empty_state
              {| response := "Report: " +:+ paris_report |}
              (chat_with_gemini paris_world configured hello empty_state).2)
    as [Hputs Hlt].
  - reflexivity.
  - vm_compute. reflexivity.
  - split; [exact Hputs|].
    apply Hlt; [valid_datetime_by_computation ..|reflexivity].
Defined.

(** C7 as written fails when the wall clock is set back between the two
    writes: the turn succeeds, and the BOT item carries the smaller sort
    key, so the history lists the reply before the question. *)
Lemma clock_set_back_orders_bot_before_user :
  (chat_with_gemini
     (sample_world clock_set_back no_fault paris_fetch (text_reply "Hi"))
     configured hello empty_state).1 = Ok {| response := "Hi" |} ∧
  put_items (trace (chat_with_gemini
     (sample_world clock_set_back no_fault paris_fetch (text_reply "Hi"))
     configured hello empty_state).2) =
    [{| UserID := "u1"; Timestamp := "2024-01-02T03:04:10+00:00";
        Sender := "USER"; Message := "hello" |};
     {| UserID := "u1"; Timestamp := "2024-01-02T03:04:09+00:00";
        Sender := "BOT"; Message := "Hi" |}] ∧
  ¬ ts_lt "2024-01-02T03:04:10+00:00" "2024-01-02T03:04:09+00:00" ∧
  (get_full_history
     (sample_world clock_set_back no_fault paris_fetch (text_reply "Hi"))
     configured "u1"
     (chat_with_gemini
        (sample_world clock_set_back no_fault paris_fetch (text_reply "Hi"))
        configured hello empty_state).2).1 =
    Ok [{| UserID := "u1"; Timestamp := "2024-01-02T03:04:09+00:00";
           Sender := "BOT"; Message := "Hi" |};
        {| UserID := "u1"; Timestamp := "2024-01-02T03:04:10+00:00";
           Sender := "USER"; Message := "hello" |}].
Proof. vm_compute. repeat split; done. Qed.


(** ** The history window *)

Lemma StronglySorted_reverse {A} (R : relation A) l :
  StronglySorted R l → StronglySorted (flip R) (reverse l).
Proof.
  induction 1 as [|x l Hl IH Hx]; [constructor|].
  rewrite reverse_cons. apply StronglySorted_app_2.
  - intros y z Hy ->%list_elem_of_singleton. unfold flip.
    rewrite Forall_forall in Hx. apply Hx. by apply elem_of_reverse.
  - done.
  - repeat constructor.
Qed.

(** Newest first, as the table answers. *)
Lemma newest_first_sorted t user_id :
  StronglySorted (flip ts_le)
    (reverse (sorted_by_timestamp (user_items t user_id))).
Proof. apply StronglySorted_reverse, sorted_by_timestamp_sorted. Qed.

Global Instance item_of_inj : Inj (=) (=) item_of.
Proof. intros [[??][??]] [[??][??]] [=]. by simplify_eq. Qed.

Lemma elem_of_table_items (t : Table) x :
  x ∈ table_items t ↔ t !! (UserID x, Timestamp x) = Some (Sender x, Message x).
Proof.
  unfold table_items. rewrite list_elem_of_fmap. split.
  - intros ([[u ts] [sd m]] & -> & H). by apply elem_of_map_to_list in H.
  - intros H. exists ((UserID x, Timestamp x), (Sender x, Message x)).
    split; [by destruct x|]. by apply elem_of_map_to_list.
Qed.

Lemma elem_of_user_items (t : Table) user_id x :
  x ∈ user_items t user_id ↔
  UserID x = user_id ∧ t !! (user_id, Timestamp x) = Some (Sender x, Message x).
Proof.
  unfold user_items. rewrite list_elem_of_filter, elem_of_table_items.
  split; intros [<- H]; done.
Qed.

Lemma NoDup_user_items (t : Table) user_id : NoDup (user_items t user_id).
Proof.
  unfold user_items, table_items.
  apply NoDup_filter, NoDup_fmap_2; [apply _|apply NoDup_map_to_list].
Qed.

Lemma sorted_by_timestamp_canonical l1 l2 :
  l1 ≡ₚ l2 →
  (∀ x y, x ∈ l1 → y ∈ l1 → Timestamp x = Timestamp y → x = y) →
  sorted_by_timestamp l1 = sorted_by_timestamp l2.
Proof.
  intros Hp Hdistinct.
  apply (StronglySorted_unique_strong ts_le).
  - intros x y Hx Hy Hxy Hyx.
    rewrite elem_of_sorted_by_timestamp in Hx, Hy. rewrite <- Hp in Hy.
    apply Hdistinct; [done..|]. by apply (anti_symm String.le).
  - apply sorted_by_timestamp_sorted.
  - apply sorted_by_timestamp_sorted.
  - by rewrite !sorted_by_timestamp_perm.
Qed.

Lemma user_items_distinct (t : Table) user_id x y :
  x ∈ user_items t user_id → y ∈ user_items t user_id →
  Timestamp x = Timestamp y → x = y.
Proof.
  intros [Hux Hx]%elem_of_user_items [Huy Hy]%elem_of_user_items Hts.
  rewrite Hts, Hy in Hx. destruct x, y. by simplify_eq/=.
Qed.

(** Whatever order the table hands the items back in, line 71 gives the
    same list: the items of one user have pairwise distinct sort keys. *)
Lemma sorted_query_order (w : World) (t : Table) (user_id : string) (n : nat) :
  sorted_by_timestamp (query_order w (query_items t user_id n)) =
  sorted_by_timestamp (query_items t user_id n).
Proof.
  assert (∀ x, x ∈ query_order w (query_items t user_id n) →
               x ∈ user_items t user_id) as Hsub.
  { intros x Hx. rewrite query_order_perm in Hx. unfold query_items in Hx.
    apply subseteq_take in Hx.
    by rewrite elem_of_reverse, elem_of_sorted_by_timestamp in Hx. }
  apply sorted_by_timestamp_canonical; [apply query_order_perm|].
  intros x y Hx Hy. eapply user_items_distinct; by apply Hsub.
Qed.

Lemma get_recent_history_ok w g user_id limit s items s' :
  get_recent_history w g user_id limit s = (Ok items, s') →
  (1 ≤ limit)%Z ∧
  items = sorted_by_timestamp (query_items (table s) user_id (Z.to_nat limit)) ∧
  s' = {| table := table s; clock_reads := clock_reads s;
          store_requests := S (store_requests s);
          trace := trace s ++ [EvQuery user_id limit] |}.
Proof.
  unfold get_recent_history, read_chat_history_table, query, table_request.
  run_m. destruct (chat_history_table g); simpl; [done|].
  case_decide; simpl; [done|].
  destruct (store_fault _ _); simpl; [done|].
  intros [= <- <-]. rewrite sorted_query_order. split; [lia|done].
Qed.

Lemma get_recent_history_returns w g t user_id limit s :
  chat_history_table g = Bound t → (1 ≤ limit)%Z →
  store_fault w (store_requests s) = None →
  get_recent_history w g user_id limit s =
    (Ok (sorted_by_timestamp (query_items (table s) user_id (Z.to_nat limit))),
     {| table := table s; clock_reads := clock_reads s;
        store_requests := S (store_requests s);
        trace := trace s ++ [EvQuery user_id limit] |}).
Proof.
  intros Hg Hl Hf.
  unfold get_recent_history, read_chat_history_table, query, table_request.
  run_m. rewrite Hg. simpl. rewrite decide_False by lia. simpl. rewrite Hf.
  by rewrite sorted_query_order.
Qed.

(** The window holds the user's newest items: whatever it leaves out is
    no newer than anything it keeps. *)
Lemma window_is_most_recent t user_id n x y :
  x ∈ query_items t user_id n →
  y ∈ user_items t user_id →
  y ∉ query_items t user_id n →
  ts_le y x.
Proof.
  unfold query_items. intros Hx Hy Hny.
  pose proof (newest_first_sorted t user_id) as Hs.
  rewrite <- (take_drop n) in Hs.
  eapply (StronglySorted_app_1_elem_of (flip ts_le)); [exact Hs|exact Hx|].
  assert (y ∈ reverse (sorted_by_timestamp (user_items t user_id))) as Hy'.
  { by apply elem_of_reverse, elem_of_sorted_by_timestamp. }
  rewrite <- (take_drop n) in Hy'.
  apply elem_of_app in Hy' as [Hy'|Hy']; [done|exact Hy'].
Qed.

Lemma query_items_exact_length (t : Table) user_id n :
  length (query_items t user_id n) = min n (length (user_items t user_id)).
Proof.
  unfold query_items.
  by rewrite length_take, length_reverse, sorted_by_timestamp_length.
Qed.

(** C8: [sorted] on line 71 puts any list of items in ascending order of
    Timestamp without adding or dropping one.  Whatever the world, and so
    in whatever order the table hands the items of the Query back,
    [get_recent_history] returns them oldest first; they are the user's
    [limit] newest items, all of them when the user has fewer; GET /history
    answers 200 with the 100 newest in the same way; and with the table
    bound, a limit of at least 1 and a table request that succeeds, both
    return. *)
Theorem recent_history_sorted_and_bounded :
  (∀ items,
     StronglySorted ts_le (sorted_by_timestamp items) ∧
     sorted_by_timestamp items ≡ₚ items) ∧
  (∀ w g user_id limit s items s',
     get_recent_history w g user_id limit s = (Ok items, s') →
     StronglySorted ts_le items ∧
     (Z.of_nat (length items) ≤ limit)%Z ∧
     length items = min (Z.to_nat limit) (length (user_items (table s) user_id)) ∧
     (∀ x, x ∈ items → x ∈ user_items (table s) user_id) ∧
     (∀ x y, x ∈ items → y ∈ user_items (table s) user_id → y ∉ items →
        ts_le y x)) ∧
  (∀ w g user_id s items s',
     get_history w g user_id s = (Http200 items, s') →
     StronglySorted ts_le items ∧
     length items ≤ 100 ∧
     length items = min 100 (length (user_items (table s) user_id)) ∧
     (∀ x, x ∈ items → x ∈ user_items (table s) user_id) ∧
     (∀ x y, x ∈ items → y ∈ user_items (table s) user_id → y ∉ items →
        ts_le y x)) ∧
  (∀ w g t user_id limit s,
     chat_history_table g = Bound t → (1 ≤ limit)%Z →
     store_fault w (store_requests s) = None →
     ∃ items s', get_recent_history w g user_id limit s = (Ok items, s')) ∧
  (∀ w g t user_id s,
     chat_history_table g = Bound t →
     store_fault w (store_requests s) = None →
     ∃ items s', get_history w g user_id s = (Http200 items, s')).
Proof.
  assert (∀ w g user_id limit s items s',
     get_recent_history w g user_id limit s = (Ok items, s') →
     StronglySorted ts_le items ∧
     (Z.of_nat (length items) ≤ limit)%Z ∧
     length items = min (Z.to_nat limit) (length (user_items (table s) user_id)) ∧
     (∀ x, x ∈ items → x ∈ user_items (table s) user_id) ∧
     (∀ x y, x ∈ items → y ∈ user_items (table s) user_id → y ∉ items →
        ts_le y x)) as Hrecent.
  { intros w g user_id limit s items s' (Hl & -> & _)%get_recent_history_ok.
    split; [apply sorted_by_timestamp_sorted|]. split.
    { rewrite sorted_by_timestamp_length.
      pose proof (query_items_length (table s) user_id (Z.to_nat limit)). lia. }
    split.
    { by rewrite sorted_by_timestamp_length, query_items_exact_length. }
    split.
    - intros x Hx. rewrite elem_of_sorted_by_timestamp in Hx.
      unfold query_items in Hx. apply subseteq_take in Hx.
      by rewrite elem_of_reverse, elem_of_sorted_by_timestamp in Hx.
    - intros x y Hx Hy Hny. rewrite elem_of_sorted_by_timestamp in Hx, Hny.
      by eapply window_is_most_recent. }
  split; [|split; [exact Hrecent|split; [|split]]].
  - intros items. split;
      [apply sorted_by_timestamp_sorted | apply sorted_by_timestamp_perm].
  - intros w g user_id s items s'. unfold get_history, get_full_history.
    destruct (get_recent_history w g user_id 100 s) as [[l|e] s1] eqn:E;
      simpl; [|by destruct e].
    intros [= <- <-].
    destruct (Hrecent _ _ _ _ _ _ _ E) as (? & ? & Hlen & ? & ?).
    change (Z.to_nat 100) with 100 in Hlen.
    repeat split; [done|lia|done..].
  - intros w g t user_id limit s Hg Hl Hf. eexists _, _.
    by apply (get_recent_history_returns w g t).
  - intros w g t user_id s Hg Hf. unfold get_history, get_full_history.
    rewrite (get_recent_history_returns w g t) by (done || lia).
    by eexists _, _.
Qed.

Lemma recent_history_sorted_and_bounded_witness :
  get_history reversing_world configured "u1" busy_state =
    (Http200 [old_question; old_answer; later_question],
     (get_history reversing_world configured "u1" busy_state).2) ∧
  StronglySorted ts_le [old_question; old_answer; later_question] ∧
  length [old_question; old_answer; later_question] =
    min 100 (length (user_items (table busy_state) "u1")) ∧
  get_recent_history reversing_world configured "u1" 2 busy_state =
    (Ok [old_answer; later_question],
     (get_recent_history reversing_world configured "u1" 2 busy_state).2) ∧
  StronglySorted ts_le [old_answer; later_question] ∧
  (Z.of_nat (length [old_answer; later_question]) ≤ 2)%Z ∧
  ts_le old_question old_answer.
Proof.
  pose proof recent_history_sorted_and_bounded as (_ & H & Hget & _ & _).
  assert (get_history reversing_world configured "u1" busy_state =
    (Http200 [old_question; old_answer; later_question],
     (get_history reversing_world configured "u1" busy_state).2)) as Hall.
  { vm_compute. reflexivity. }
  assert (get_recent_history reversing_world configured "u1" 2 busy_state =
    (Ok [old_answer; later_question],
     (get_recent_history reversing_world configured "u1" 2 busy_state).2))
    as Hrun.
  { vm_compute. reflexivity. }
  destruct (Hget _ _ _ _ _ _ Hall) as (Hsorted100 & _ & Hlen100 & _ & _).
  destruct (H _ _ _ _ _ _ _ Hrun) as (Hsorted & Hlen & _ & _ & Hrecent).
  split; [exact Hall|]. split; [exact Hsorted100|]. split; [exact Hlen100|].
  split; [exact Hrun|]. split; [exact Hsorted|]. split; [exact Hlen|].
  apply Hrecent.
  - apply list_elem_of_here.
  - apply (bool_decide_unpack _). vm_compute. exact I.
  - apply (bool_decide_unpack _). vm_compute. exact I.
Defined.

(** ** The current message inside its own history window *)

Lemma insert_by_timestamp_last x l :
  (∀ y, y ∈ l → ¬ ts_le x y) → insert_by_timestamp x l = l ++ [x].
Proof.
  induction l as [|y l IH]; intros H; simpl; [done|].
  rewrite decide_False by (apply H; left).
  rewrite IH; [done|]. intros z Hz. apply H. by right.
Qed.






(** ** A whole turn, end to end *)

(** The model asks for the weather in Paris, the provider answers, the second
    call of the model is fed the report, and two items are written; reading
    the history afterwards gives them oldest first. *)
Example paris_turn_then_history :
  (chat_with_gemini paris_world configured
     {| userId := "u1"; message := "What is the weather in Paris?" |}
     empty_state).1 = Ok {| response := "Report: " +:+ paris_report |} ∧
  (get_history paris_world configured "u1"
     (chat_with_gemini paris_world configured
        {| userId := "u1"; message := "What is the weather in Paris?" |}
        empty_state).2).1 =
    Http200
      [{| UserID := "u1"; Timestamp := "2024-01-02T03:04:10+00:00";
          Sender := "USER"; Message := "What is the weather in Paris?" |};
       {| UserID := "u1"; Timestamp := "2024-01-02T03:04:11+00:00";
          Sender := "BOT"; Message := "Report: " +:+ paris_report |}].
Proof. vm_compute. split; reflexivity. Qed.

(** * Further properties of the module *)

(** ** The weather tool, outcome by outcome *)

(** X1: when the provider answers outside the 4xx/5xx range with a JSON
    object that has [name], [main.temp] and [weather[0].description],
    [get_weather] returns the serialised report built from exactly those
    three values and the [unit] it was called with. *)
Theorem get_weather_reports_provider_fields
    w g location unit s code msg data name main temp weather first description :
  requests_get w weather_url (weather_params g location unit) =
    FetchReplied code msg (JsonBody data) →
  ¬ (400 ≤ code < 600)%Z →
  getitem data "name" = Ok name →
  getitem data "main" = Ok main →
  getitem main "temp" = Ok temp →
  getitem data "weather" = Ok weather →
  getitem0 weather = Ok first →
  getitem first "description" = Ok description →
  (get_weather w g location unit s).1 =
    Ok (json_dumps w (JObject [("location", name); ("temperature", temp);
                               ("unit", JString unit);
                               ("conditions", description)])).
Proof.
  intros Hf Hc Hn Hm Ht Hw H0 Hd.
  unfold get_weather, weather_report, raise_for_status, response_json.
  run_m. simpl. fold weather_url. rewrite Hf. simpl.
  rewrite decide_False by done. simpl.
  by rewrite Hn, Hm, Ht, Hw, H0, Hd.
Qed.

Lemma get_weather_reports_provider_fields_witness :
  (get_weather paris_world configured (Some "Paris") "fahrenheit" empty_state).1 =
    Ok (render_json (JObject [("location", JString "Paris");
                              ("temperature", JNumber "18.2");
                              ("unit", JString "fahrenheit");
                              ("conditions", JString "clear sky")])).
Proof.
  apply (get_weather_reports_provider_fields paris_world configured
           (Some "Paris") "fahrenheit" empty_state 200%Z "OK" paris_weather
           (JString "Paris") (JObject [("temp", JNumber "18.2")])
           (JNumber "18.2")
           (JArray [JObject [("description", JString "clear sky")]])
           (JObject [("description", JString "clear sky")])
           (JString "clear sky")); try reflexivity.
  lia.
Defined.

(** X2: the three failures the except clause on line 52 does take.  An
    unreachable provider, a 4xx or 5xx status, and a body that is not JSON
    all make [get_weather] return the error payload instead of raising. *)
Theorem get_weather_soft_fails w g location unit s :
  (∀ msg,
     requests_get w weather_url (weather_params g location unit) = FetchFailed msg →
     (get_weather w g location unit s).1 = Ok (weather_error w msg)) ∧
  (∀ code msg body,
     requests_get w weather_url (weather_params g location unit) =
       FetchReplied code msg body →
     (400 ≤ code < 600)%Z →
     (get_weather w g location unit s).1 = Ok (weather_error w msg)) ∧
  (∀ code msg bmsg,
     requests_get w weather_url (weather_params g location unit) =
       FetchReplied code msg (NotJson bmsg) →
     ¬ (400 ≤ code < 600)%Z →
     (get_weather w g location unit s).1 = Ok (weather_error w bmsg)).
Proof.
  pose proof (get_weather_soft_failure w g location unit s) as H.
  repeat split.
  - intros msg E. by rewrite E in H.
  - intros code msg body E Hc. rewrite E in H. destruct H as [H _]. by apply H.
  - intros code msg bmsg E Hc. rewrite E in H. destruct H as [_ H].
    by apply (H bmsg).
Qed.

Lemma get_weather_soft_fails_witness :
  (get_weather
     (sample_world clock_forward no_fault timeout_fetch (text_reply "Hi"))
     configured (Some "Paris") "celsius" empty_state).1 =
    Ok (render_json
          (JObject [("error",
                     JString "Failed to get weather data: Connection timed out")])).
Proof.
  apply (get_weather_soft_fails
           (sample_world clock_forward no_fault timeout_fetch (text_reply "Hi"))
           configured (Some "Paris") "celsius" empty_state).
  reflexivity.
Defined.

(** X3: whatever the outcome, one call of [get_weather] sends exactly one
    GET, to the fixed URL, with [q], [appid] and [units]; [units] is metric
    for the unit [celsius] and imperial for every other string; the table,
    the clock and the count of table requests are left as they were. *)
Theorem get_weather_sends_one_request w g location unit s :
  table (get_weather w g location unit s).2 = table s ∧
  clock_reads (get_weather w g location unit s).2 = clock_reads s ∧
  store_requests (get_weather w g location unit s).2 = store_requests s ∧
  trace (get_weather w g location unit s).2 =
    trace s ++
      [EvGetWeather location unit;
       EvHttpGet "http://api.openweathermap.org/data/2.5/weather"
         [("q", location); ("appid", WEATHER_API_KEY g);
          ("units", Some (if bool_decide (unit = "celsius")
                          then "metric" else "imperial"))]].
Proof.
  rewrite get_weather_logs. unfold logged, weather_params, weather_url. simpl.
  repeat split. by destruct (decide (unit = "celsius"));
    [rewrite bool_decide_eq_true_2 | rewrite bool_decide_eq_false_2].
Qed.

(** ** The tool branch of the handler, outcome by outcome *)

Lemma get_weather_pair w g location unit s :
  get_weather w g location unit s =
    ((get_weather w g location unit s).1,
     logged s [EvGetWeather location unit;
               EvHttpGet weather_url (weather_params g location unit)]).
Proof.
  rewrite <- (get_weather_logs w g location unit s).
  by destruct (get_weather _ _ _ _ _).
Qed.

(** X4: a provider body whose [weather] array is empty makes line 51 raise
    IndexError inside the try block of the handler; the except clause on
    line 101 takes it, so the answer is the [text] of the first reply (the
    one that asked for the tool) and the model is not called a second
    time. *)
Theorem empty_weather_array_falls_back_to_first_text
    w g chat r part fc s code msg data name main temp :
  first_part r = Ok part →
  function_call part = Some fc →
  requests_get w weather_url
    (weather_params g (args fc !! "location") default_unit) =
    FetchReplied code msg (JsonBody data) →
  ¬ (400 ≤ code < 600)%Z →
  getitem data "name" = Ok name →
  getitem data "main" = Ok main →
  getitem main "temp" = Ok temp →
  getitem data "weather" = Ok (JArray []) →
  response_text_of w g chat r s =
    (text r,
     logged s [EvGetWeather (args fc !! "location") default_unit;
               EvHttpGet weather_url
                 (weather_params g (args fc !! "location") default_unit)]).
Proof.
  intros Hp Hfc Hf Hc Hn Hm Ht Hw.
  rewrite (response_text_of_tool _ _ _ _ _ _ _ Hp Hfc), get_weather_pair.
  assert ((get_weather w g (args fc !! "location") default_unit s).1 =
          Err IndexError) as ->; [|done].
  unfold get_weather, weather_report, raise_for_status, response_json.
  run_m. simpl. fold weather_url. rewrite Hf. simpl.
  rewrite decide_False by done. simpl.
  by rewrite Hn, Hm, Ht, Hw.
Qed.

Lemma empty_weather_array_falls_back_to_first_text_witness :
  response_text_of
    (sample_world clock_forward no_fault no_conditions_fetch
       (tool_reply "Paris" "celsius"))
    configured (hello_chat (tool_reply "Paris" "celsius"))
    (tool_reply "Paris" "celsius") hello_opened =
  (Err (ValueError "the response has no text part"),
   logged hello_opened
     [EvGetWeather (Some "Paris") "celsius";
      EvHttpGet weather_url
        [("q", Some "Paris"); ("appid", Some "wk"); ("units", Some "metric")]]).
Proof.
  apply (empty_weather_array_falls_back_to_first_text
           (sample_world clock_forward no_fault no_conditions_fetch
              (tool_reply "Paris" "celsius"))
           configured (hello_chat (tool_reply "Paris" "celsius"))
           (tool_reply "Paris" "celsius") paris_part paris_call hello_opened
           200%Z "OK"
           (JObject [("name", JString "Paris");
                     ("main", JObject [("temp", JNumber "18.2")]);
                     ("weather", JArray [])])
           (JString "Paris") (JObject [("temp", JNumber "18.2")])
           (JNumber "18.2")); try reflexivity.
  lia.
Defined.

(** X5: when the provider cannot be reached during a tool round trip, the
    turn goes on: the second call of the model carries the error payload
    as the result of [get_weather], and the answer is the text of the
    second reply. *)
Theorem provider_failure_is_reported_to_model w g chat r part fc s msg r2 t :
  first_part r = Ok part →
  function_call part = Some fc →
  requests_get w weather_url
    (weather_params g (args fc !! "location") default_unit) = FetchFailed msg →
  generate_content w
    (chat ++ [FunctionResponseContent "get_weather" (weather_error w msg)]) = Ok r2 →
  text r2 = Ok t →
  response_text_of w g chat r s =
    (Ok t,
     logged s [EvGetWeather (args fc !! "location") default_unit;
               EvHttpGet weather_url
                 (weather_params g (args fc !! "location") default_unit);
               EvSendMessage
                 (chat ++ [FunctionResponseContent "get_weather"
                             (weather_error w msg)])]).
Proof.
  intros Hp Hfc Hf Hg Ht.
  rewrite (response_text_of_tool _ _ _ _ _ _ _ Hp Hfc), get_weather_pair.
  pose proof (get_weather_soft_failure w g (args fc !! "location")
                default_unit s) as Hfail.
  rewrite Hf in Hfail. rewrite Hfail. simpl. rewrite Hg, Ht.
  by rewrite logged_logged.
Qed.

Lemma provider_failure_is_reported_to_model_witness :
  response_text_of
    (sample_world clock_forward no_fault timeout_fetch
       (tool_reply "Paris" "celsius"))
    configured (hello_chat (tool_reply "Paris" "celsius"))
    (tool_reply "Paris" "celsius") hello_opened =
  (Ok ("Report: " +:+
       render_json
         (JObject [("error",
                    JString "Failed to get weather data: Connection timed out")])),
   logged hello_opened
     [EvGetWeather (Some "Paris") "celsius";
      EvHttpGet weather_url
        [("q", Some "Paris"); ("appid", Some "wk"); ("units", Some "metric")];
      EvSendMessage
        (hello_chat (tool_reply "Paris" "celsius") ++
         [FunctionResponseContent "get_weather"
            (render_json
               (JObject [("error",
                          JString "Failed to get weather data: Connection timed out")]))])]).
Proof.
  apply (provider_failure_is_reported_to_model
           (sample_world clock_forward no_fault timeout_fetch
              (tool_reply "Paris" "celsius"))
           configured (hello_chat (tool_reply "Paris" "celsius"))
           (tool_reply "Paris" "celsius") paris_part paris_call hello_opened
           "Connection timed out"
           (text_reply ("Report: " +:+
              render_json
                (JObject [("error",
                   JString "Failed to get weather data: Connection timed out")]))));
    reflexivity.
Defined.

(** ** Failures of the collaborators during a turn *)

Lemma save_message_run w g t user_id sender message s :
  chat_history_table g = Bound t →
  save_message w g user_id sender message s =
    (match store_fault w (store_requests s) with
     | Some e => Err e
     | None => Ok ()
     end,
     {| table :=
          match store_fault w (store_requests s) with
          | Some _ => table s
          | None => <[(user_id, isoformat (now w (clock_reads s)))
                      := (sender, message)]> (table s)
          end;
        clock_reads := S (clock_reads s);
        store_requests := S (store_requests s);
        trace := trace s ++
                 [EvPutItem {| UserID := user_id;
                               Timestamp := isoformat (now w (clock_reads s));
                               Sender := sender; Message := message |}] |}).
Proof.
  intros Hg. rewrite (save_message_bound _ _ _ _ _ _ _ Hg).
  unfold put_item, table_request. simpl. by destruct (store_fault _ _).
Qed.

(** Lines 80-88 when both table requests succeed: what is left is the first
    call of the model. *)
Lemma chat_open_run w g t request s :
  chat_history_table g = Bound t →
  str_truthy (userId request) = true →
  str_truthy (message request) = true →
  store_fault w (store_requests s) = None →
  store_fault w (S (store_requests s)) = None →
  chat_open w g request s =
    send_message w
      (history_entry <$>
         sorted_by_timestamp
           (query_items
              (<[(userId request, isoformat (now w (clock_reads s)))
                 := ("USER", message request)]> (table s))
              (userId request) 5))
      (TextContent "user" (message request))
      {| table := <[(userId request, isoformat (now w (clock_reads s)))
                    := ("USER", message request)]> (table s);
         clock_reads := S (clock_reads s);
         store_requests := S (S (store_requests s));
         trace := (trace s ++ [EvPutItem (user_item w request s)]) ++
                  [EvQuery (userId request) 5] |}.
Proof.
  intros Hg Hu Hm Hf1 Hf2. unfold chat_open. rewrite Hu, Hm. simpl.
  pose proof (save_message_run w g t (userId request) "USER" (message request)
                s Hg) as Hsave.
  rewrite Hf1 in Hsave. rewrite (bind_ok _ _ _ _ _ Hsave).
  erewrite bind_ok; [reflexivity|].
  by rewrite (get_recent_history_returns w g t) by (done || lia).
Qed.



(** X7: a table request that fails before the model is reached ends the
    turn with that exception and without any call of the model.  If it is
    the USER write, the table is as it was; if it is the history query,
    the USER item has been written. *)
Theorem store_failure_aborts_before_model w g t request s e :
  chat_history_table g = Bound t →
  str_truthy (userId request) = true →
  str_truthy (message request) = true →
  (store_fault w (store_requests s) = Some e →
   chat_with_gemini w g request s =
     (Err e,
      {| table := table s;
         clock_reads := S (clock_reads s);
         store_requests := S (store_requests s);
         trace := trace s ++ [EvPutItem (user_item w request s)] |})) ∧
  (store_fault w (store_requests s) = None →
   store_fault w (S (store_requests s)) = Some e →
   chat_with_gemini w g request s =
     (Err e,
      {| table := <[(userId request, isoformat (now w (clock_reads s)))
                    := ("USER", message request)]> (table s);
         clock_reads := S (clock_reads s);
         store_requests := S (S (store_requests s));
         trace := trace s ++ [EvPutItem (user_item w request s);
                              EvQuery (userId request) 5] |})).
Proof.
  intros Hg Hu Hm.
  pose proof (save_message_run w g t (userId request) "USER" (message request)
                s Hg) as Hsave.
  split.
  - intros Hf. rewrite Hf in Hsave. do 2 apply bind_err.
    unfold chat_open. rewrite Hu, Hm. simpl. by apply bind_err.
  - intros Hf1 Hf2. rewrite Hf1 in Hsave. do 2 apply bind_err.
    unfold chat_open. rewrite Hu, Hm. simpl.
    rewrite (bind_ok _ _ _ _ _ Hsave). apply bind_err.
    unfold get_recent_history, read_chat_history_table, query, table_request.
    run_m. rewrite Hg. simpl. rewrite Hf2. by rewrite <- app_assoc.
Qed.

Lemma store_failure_aborts_before_model_witness :
  chat_with_gemini
    (sample_world clock_forward user_write_fault paris_fetch (text_reply "Hi"))
    configured hello empty_state =
  (Err (ClientError "ResourceNotFoundException"),
   {| table := ∅; clock_reads := 1; store_requests := 1;
      trace := [EvPutItem hello_item] |}) ∧
  chat_with_gemini
    (sample_world clock_forward query_fault paris_fetch (text_reply "Hi"))
    configured hello empty_state =
  (Err (ClientError "AccessDeniedException"),
   {| table := {[ ("u1", "2024-01-02T03:04:10+00:00") := ("USER", "hello") ]};
      clock_reads := 1; store_requests := 2;
      trace := [EvPutItem hello_item; EvQuery "u1" 5] |}).
Proof.
  split.
  - apply (store_failure_aborts_before_model
             (sample_world clock_forward user_write_fault paris_fetch
                (text_reply "Hi"))
             configured "ChatHistory" hello empty_state
             (ClientError "ResourceNotFoundException")); reflexivity.
  - apply (store_failure_aborts_before_model
             (sample_world clock_forward query_fault paris_fetch
                (text_reply "Hi"))
             configured "ChatHistory" hello empty_state
             (ClientError "AccessDeniedException")); reflexivity.
Defined.

(** ** What a turn does to the table *)

Lemma preserves_compose {X Y A} (φ : State → X) (f : X → Y) (m : M A) :
  preserves φ m → preserves (λ s, f (φ s)) m.
Proof. intros H s. by rewrite H. Qed.

Lemma get_recent_history_table w g user_id limit :
  preserves table (get_recent_history w g user_id limit).
Proof.
  intros s. unfold get_recent_history, read_chat_history_table, query,
    table_request. run_m.
  destruct (chat_history_table g); simpl; [done|].
  case_decide; simpl; [done|]. by destruct (store_fault _ _).
Qed.

Lemma send_message_table w chat c : preserves table (send_message w chat c).
Proof. intros s. by rewrite send_message_run. Qed.

Lemma response_text_of_table w g chat r :
  preserves table (response_text_of w g chat r).
Proof.
  intros s.
  by destruct (response_text_of_state w g chat r s)
    as [[_ ->]|(fc & rest & _ & _ & _ & ->)].
Qed.

Lemma save_message_table_frame w g user_id sender message s k :
  k ≠ (user_id, isoformat (now w (clock_reads s))) →
  table (save_message w g user_id sender message s).2 !! k = table s !! k.
Proof.
  intros Hk. destruct (chat_history_table g) as [|t] eqn:Hg.
  - by rewrite save_message_unbound.
  - rewrite (save_message_run _ _ _ _ _ _ _ Hg). simpl.
    destruct (store_fault _ _); [done|]. by apply lookup_insert_ne.
Qed.

Lemma chat_answer_unfold w g request s :
  chat_answer w g request s =
    match chat_open w g request s with
    | (Ok (r, chat), s1) => response_text_of w g chat r s1
    | (Err e, s1) => (Err e, s1)
    end.
Proof.
  unfold chat_answer, mbind, M_bind.
  by destruct (chat_open w g request s) as [[[r chat]|e] s1].
Qed.

Lemma chat_with_gemini_unfold w g request s :
  chat_with_gemini w g request s =
    match chat_answer w g request s with
    | (Ok response_text, s2) =>
        match save_message w g (userId request) "BOT" response_text s2 with
        | (Ok _, s3) => (Ok {| response := response_text |}, s3)
        | (Err e, s3) => (Err e, s3)
        end
    | (Err e, s2) => (Err e, s2)
    end.
Proof.
  unfold chat_with_gemini, mbind, M_bind.
  destruct (chat_answer w g request s) as [[response_text|e] s2]; [|done].
  by destruct (save_message _ _ _ _ _ _) as [[[]|e] s3].
Qed.

(** A turn changes the table at no key other than the two it writes. *)
Lemma chat_with_gemini_table_frame w g request s k :
  k ≠ (userId request, isoformat (now w (clock_reads s))) →
  k ≠ (userId request, isoformat (now w (S (clock_reads s)))) →
  table (chat_with_gemini w g request s).2 !! k = table s !! k.
Proof.
  intros Hk1 Hk2.
  destruct (chat_history_table g) as [|t] eqn:Hg.
  { assert (chat_open w g request s = ((chat_open w g request s).1, s)) as Ho.
    { unfold chat_open. destruct (_ || _); [done|].
      unfold mbind, M_bind. by rewrite save_message_unbound. }
    rewrite chat_with_gemini_unfold, chat_answer_unfold, Ho.
    destruct (chat_open w g request s).1 as [[r chat]|e]; simpl; [|done].
    pose proof (response_text_of_table w g chat r s) as Hr.
    destruct (response_text_of w g chat r s) as [[text_|e] s2]; simpl in *;
      [|by rewrite Hr].
    rewrite save_message_unbound by done. simpl. by rewrite Hr. }
  assert (table (chat_open w g request s).2 !! k = table s !! k) as Hopen.
  { unfold chat_open. destruct (_ || _); [done|].
    unfold mbind at 1, M_bind at 1.
    pose proof (save_message_table_frame w g (userId request) "USER"
                  (message request) s k Hk1) as Hs.
    destruct (save_message _ _ _ _ _ _) as [[[]|e] sa]; simpl in *; [|done].
    rewrite <- Hs.
    apply (preserves_bind (λ s, table s !! k)).
    - apply (preserves_compose table), get_recent_history_table.
    - intros h. apply (preserves_compose table), send_message_table. }
  rewrite chat_with_gemini_unfold, chat_answer_unfold.
  destruct (chat_open w g request s) as [[[r chat]|e] s1] eqn:Ho;
    simpl in *; [|done].
  pose proof (response_text_of_table w g chat r s1) as Hr.
  pose proof (response_text_of_writes w g chat r s1) as Hc.
  rewrite (chat_open_writes _ _ _ _ _ _ _ Hg Ho) in Hc.
  destruct (response_text_of w g chat r s1) as [[text_|e] s2]; simpl in *;
    [|by rewrite Hr].
  unfold writes_and_clock in Hc. injection Hc as _ Hclock.
  pose proof (save_message_table_frame w g (userId request) "BOT" text_ s2 k)
    as Hs.
  rewrite Hclock in Hs. specialize (Hs Hk2).
  destruct (save_message _ _ _ _ _ _) as [[[]|e] s3]; simpl in *;
    by rewrite Hs, Hr.
Qed.

(** X8: a chat turn leaves every stored item as it was, and adds none,
    except at the two keys it writes: the requesting user's id with the
    USER timestamp and with the BOT timestamp.  In particular no item of
    another user is ever touched. *)
Theorem turn_touches_only_its_two_keys w g request s :
  (∀ k,
     k ≠ (userId request, isoformat (now w (clock_reads s))) →
     k ≠ (userId request, isoformat (now w (S (clock_reads s)))) →
     table (chat_with_gemini w g request s).2 !! k = table s !! k) ∧
  (∀ other ts,
     other ≠ userId request →
     table (chat_with_gemini w g request s).2 !! (other, ts) =
       table s !! (other, ts)).
Proof.
  split.
  - intros k. apply chat_with_gemini_table_frame.
  - intros other ts Ho. apply chat_with_gemini_table_frame; congruence.
Qed.

Lemma turn_touches_only_its_two_keys_witness :
  table (chat_with_gemini paris_world configured hello busy_state).2
    !! ("u1", "2024-01-01T09:00:00+00:00") = Some ("USER", "hi") ∧
  table (chat_with_gemini paris_world configured hello busy_state).2
    !! ("u2", "2024-01-01T09:30:00+00:00") = Some ("USER", "bonjour").
Proof.
  destruct (turn_touches_only_its_two_keys paris_world configured hello
              busy_state) as [Hkeys Hother].
  split.
  - rewrite Hkeys; [reflexivity| |]; vm_compute; congruence.
  - rewrite Hother; [reflexivity|]. vm_compute. congruence.
Defined.

(** X9: reading the history changes nothing that is stored: GET /history
    leaves the table as it was, writes no item and reads no clock, whether
    it answers 200 or fails. *)
Theorem get_history_is_read_only w g user_id s :
  table (get_history w g user_id s).2 = table s ∧
  put_items (trace (get_history w g user_id s).2) = put_items (trace s) ∧
  clock_reads (get_history w g user_id s).2 = clock_reads s.
Proof.
  unfold get_history, get_full_history.
  pose proof (get_recent_history_table w g user_id 100 s) as Ht.
  pose proof (get_recent_history_preserves writes_and_clock w g user_id 100
                (writes_query_frame _ _) s) as Hw.
  destruct (get_recent_history w g user_id 100 s) as [r s1]. simpl in *.
  unfold writes_and_clock in Hw. by simplify_eq.
Qed.

(** ** Histories do not depend on how the table is laid out *)

Lemma query_items_same_keys (t t' : Table) user_id n :
  (∀ ts, t' !! (user_id, ts) = t !! (user_id, ts)) →
  query_items t' user_id n = query_items t user_id n.
Proof.
  intros Hsame. unfold query_items. do 2 f_equal.
  apply sorted_by_timestamp_canonical.
  - apply NoDup_Permutation; [apply NoDup_user_items..|].
    intros x. rewrite !elem_of_user_items. by rewrite Hsame.
  - intros x y. apply user_items_distinct.
Qed.

(** X10: a chat turn of one user does not change what any other user's
    history reads: the items a Query for another user returns are the same,
    in the same order, before and after the turn, so [get_recent_history]
    gives the same list whenever it returns. *)
Theorem turn_leaves_other_histories_unchanged w g request s other :
  other ≠ userId request →
  (∀ n, query_items (table (chat_with_gemini w g request s).2) other n =
        query_items (table s) other n) ∧
  (∀ w' g' limit before s1 after s2,
     get_recent_history w' g' other limit s = (Ok before, s1) →
     get_recent_history w' g' other limit (chat_with_gemini w g request s).2 =
       (Ok after, s2) →
     after = before).
Proof.
  intros Hother.
  assert (∀ n, query_items (table (chat_with_gemini w g request s).2) other n =
               query_items (table s) other n) as Hq.
  { intros n. apply query_items_same_keys. intros ts.
    apply chat_with_gemini_table_frame; congruence. }
  split; [exact Hq|].
  intros w' g' limit before s1 after s2
    (_ & -> & _)%get_recent_history_ok (_ & -> & _)%get_recent_history_ok.
  by rewrite Hq.
Qed.

Lemma turn_leaves_other_histories_unchanged_witness :
  (get_recent_history paris_world configured "u2" 5
     (chat_with_gemini paris_world configured hello busy_state).2).1 =
  (get_recent_history paris_world configured "u2" 5 busy_state).1.
Proof.
  destruct (turn_leaves_other_histories_unchanged paris_world configured hello
              busy_state "u2") as [_ Hsame].
  { vm_compute. congruence. }
  destruct (get_recent_history paris_world configured "u2" 5 busy_state)
    as [[before|e] s1] eqn:E1; [|vm_compute in E1; discriminate].
  destruct (get_recent_history paris_world configured "u2" 5
              (chat_with_gemini paris_world configured hello busy_state).2)
    as [[after|e] s2] eqn:E2; [|vm_compute in E2; discriminate].
  simpl. f_equal. exact (Hsame _ _ _ _ _ _ _ E1 E2).
Defined.

(** X11: for items with pairwise distinct timestamps, the list line 71
    returns is the same for every order in which the items come in. *)
Theorem sorted_result_ignores_input_order (l1 l2 : list Item) :
  l1 ≡ₚ l2 →
  NoDup (Timestamp <$> l1) →
  sorted_by_timestamp l1 = sorted_by_timestamp l2.
Proof.
  intros Hp Hnd. apply sorted_by_timestamp_canonical; [done|].
  intros x y Hx Hy Hts.
  apply list_elem_of_lookup in Hx as [i Hi], Hy as [j Hj].
  assert (i = j) as ->.
  { eapply NoDup_lookup; [exact Hnd|..]; rewrite list_lookup_fmap.
    - by rewrite Hi.
    - by rewrite Hj, Hts. }
  congruence.
Qed.

Lemma sorted_result_ignores_input_order_witness :
  sorted_by_timestamp [later_question; old_question; old_answer] =
  sorted_by_timestamp [old_answer; later_question; old_question].
Proof.
  apply sorted_result_ignores_input_order.
  - apply (bool_decide_unpack _). vm_compute. exact I.
  - apply (bool_decide_unpack _). vm_compute. exact I.
Defined.

(** ** Sort keys and instants *)

Lemma datetime_compare_eq a b : datetime_compare a b = Eq → a = b.
Proof.
  unfold datetime_compare. destruct a, b. simpl.
  repeat match goal with
         | |- context [?x ?= ?y] =>
             destruct (Nat.compare_spec x y); try discriminate; subst
         end.
  done.
Qed.

(** X12: for two readings of the clock within the range of Python's
    datetime, the strings written as Timestamp compare, as strings, exactly
    as the instants do (also when isoformat leaves the fraction out for one
    of them), and two different instants never get the same key. *)
Theorem timestamps_sort_chronologically a b :
  valid_datetime a → valid_datetime b →
  String.compare (isoformat a) (isoformat b) = datetime_compare a b ∧
  (isoformat a = isoformat b → a = b) ∧
  (String.le (isoformat a) (isoformat b) ↔ datetime_compare a b ≠ Gt).
Proof.
  intros Ha Hb. pose proof (isoformat_compare a b Ha Hb) as Hc.
  split; [exact Hc|]. split.
  - intros E. apply datetime_compare_eq. rewrite <- Hc, E.
    apply string_compare_refl.
  - unfold String.le, String.leb. rewrite Hc.
    destruct (datetime_compare a b); simpl; split; (done || congruence).
Qed.

Lemma timestamps_sort_chronologically_witness :
  String.compare (isoformat (clock_forward 40))
    (isoformat {| year := 2024; month := 1; day := 2; hour := 3; minute := 4;
                  second := 49; microsecond := 120 |}) = Gt.
Proof.
  destruct (timestamps_sort_chronologically (clock_forward 40)
              {| year := 2024; month := 1; day := 2; hour := 3; minute := 4;
                 second := 49; microsecond := 120 |}) as (H & _ & _);
    [valid_datetime_by_computation..|].
  rewrite H. vm_compute. reflexivity.
Defined.

(** ** How often the model is called *)

Lemma model_calls_app l1 l2 :
  model_calls (l1 ++ l2) = model_calls l1 + model_calls l2.
Proof. unfold model_calls. by rewrite filter_app, length_app. Qed.

Lemma sends_logged s evs : sends (logged s evs) = sends s + model_calls evs.
Proof. unfold sends, logged. simpl. apply model_calls_app. Qed.

Lemma sends_table_request_frame ev s t :
  is_send_message ev = false →
  sends {| table := t; clock_reads := clock_reads s;
           store_requests := S (store_requests s);
           trace := trace s ++ [ev] |} = sends s.
Proof.
  intros Hev. unfold sends. simpl. rewrite model_calls_app.
  destruct ev; try discriminate; unfold model_calls at 2; simpl; lia.
Qed.

Lemma save_message_sends w g user_id sender message :
  preserves sends (save_message w g user_id sender message).
Proof.
  unfold save_message, read_chat_history_table.
  apply preserves_bind.
  - destruct (chat_history_table g); [apply preserves_raise | apply preserves_ret].
  - intros t. simpl. apply preserves_bind; [by intros s|].
    intros ts. apply preserves_table_request. intros s t'.
    by apply sends_table_request_frame.
Qed.

Lemma get_recent_history_sends w g user_id limit :
  preserves sends (get_recent_history w g user_id limit).
Proof.
  apply get_recent_history_preserves. intros s t.
  by apply sends_table_request_frame.
Qed.

Lemma send_message_sends w chat c s :
  sends (send_message w chat c s).2 = sends s + 1.
Proof.
  rewrite send_message_run. simpl. rewrite sends_logged.
  unfold model_calls. simpl. lia.
Qed.

Lemma chat_open_sends w g request s :
  sends (chat_open w g request s).2 ≤ sends s + 1 ∧
  (∀ x s1, chat_open w g request s = (Ok x, s1) → sends s1 = sends s + 1).
Proof.
  unfold chat_open. destruct (_ || _); [split; [simpl; lia|done]|].
  unfold mbind at 1 3, M_bind at 1 3.
  pose proof (save_message_sends w g (userId request) "USER" (message request) s)
    as Hs.
  destruct (save_message _ _ _ _ _ _) as [[[]|e] sa]; simpl in Hs;
    [|split; [simpl; lia|done]].
  unfold mbind, M_bind.
  pose proof (get_recent_history_sends w g (userId request) 5 sa) as Hh.
  destruct (get_recent_history _ _ _ _ _) as [[h|e] sb]; simpl in Hh;
    [|split; [simpl; lia|done]].
  pose proof (send_message_sends w (history_entry <$> h)
                (TextContent "user" (message request)) sb) as Hm.
  split; [lia|]. intros x s1 E. rewrite E in Hm. simpl in Hm. lia.
Qed.

Lemma response_text_of_sends w g chat r s :
  (is_tool_request r = false → sends (response_text_of w g chat r s).2 = sends s) ∧
  (∀ part fc, first_part r = Ok part → function_call part = Some fc →
     sends (response_text_of w g chat r s).2 =
       sends s +
       match (get_weather w g (args fc !! "location") default_unit s).1 with
       | Ok _ => 1
       | Err _ => 0
       end).
Proof.
  split.
  - intros Hno.
    destruct (response_text_of_state w g chat r s)
      as [[_ ->]|(fc & rest & Ht & _)]; [done|congruence].
  - intros part fc Hp Hfc.
    rewrite (response_text_of_tool _ _ _ _ _ _ _ Hp Hfc), get_weather_pair.
    destruct (get_weather _ _ _ _ _).1 as [data|e]; simpl.
    + destruct (generate_content _ _) as [r2|e];
        [destruct (text r2) as [t|e]|]; rewrite ?after_except_state;
        cbn [snd]; rewrite !sends_logged; unfold model_calls; simpl; lia.
    + rewrite after_except_state, sends_logged. unfold model_calls. simpl. lia.
Qed.

(** X13: a turn calls the model at most twice: once when the first reply is
    not a tool request or [get_weather] raises, twice when the reply is a
    tool request and [get_weather] returns. *)
Theorem at_most_two_model_calls w g request s :
  sends (chat_with_gemini w g request s).2 ≤ sends s + 2 ∧
  (∀ r chat s1,
     chat_open w g request s = (Ok (r, chat), s1) →
     is_tool_request r = false →
     sends (chat_with_gemini w g request s).2 = sends s + 1) ∧
  (∀ r chat s1 part fc,
     chat_open w g request s = (Ok (r, chat), s1) →
     first_part r = Ok part → function_call part = Some fc →
     sends (chat_with_gemini w g request s).2 =
       sends s + 1 +
       match (get_weather w g (args fc !! "location") default_unit s1).1 with
       | Ok _ => 1
       | Err _ => 0
       end).
Proof.
  assert (∀ r chat s1, chat_open w g request s = (Ok (r, chat), s1) →
            sends (chat_with_gemini w g request s).2 =
              sends (response_text_of w g chat r s1).2) as Hrest.
  { intros r chat s1 Ho. rewrite chat_with_gemini_unfold, chat_answer_unfold, Ho.
    destruct (response_text_of w g chat r s1) as [[text_|e] s2]; [|done].
    pose proof (save_message_sends w g (userId request) "BOT" text_ s2) as Hs.
    by destruct (save_message _ _ _ _ _ _) as [[[]|e] s3]. }
  destruct (chat_open_sends w g request s) as [Hle Hok].
  split; [|split].
  - destruct (chat_open w g request s) as [[[r chat]|e] s1] eqn:Ho.
    + rewrite (Hrest _ _ _ eq_refl). specialize (Hok _ _ eq_refl).
      destruct (response_text_of_sends w g chat r s1) as [Hplain Htool].
      destruct (is_tool_request r) eqn:Ht.
      * apply is_tool_request_true in Ht as (part & fc & Hp & Hfc).
        rewrite (Htool _ _ Hp Hfc). destruct (get_weather _ _ _ _ _).1; lia.
      * rewrite Hplain by done. lia.
    + rewrite chat_with_gemini_unfold, chat_answer_unfold, Ho. simpl in *. lia.
  - intros r chat s1 Ho Ht. rewrite (Hrest _ _ _ Ho).
    destruct (response_text_of_sends w g chat r s1) as [Hplain _].
    rewrite Hplain by done. by apply Hok in Ho.
  - intros r chat s1 part fc Ho Hp Hfc. rewrite (Hrest _ _ _ Ho).
    destruct (response_text_of_sends w g chat r s1) as [_ Htool].
    rewrite (Htool _ _ Hp Hfc). apply Hok in Ho. lia.
Qed.

Lemma at_most_two_model_calls_witness :
  sends (chat_with_gemini paris_world configured hello empty_state).2 =
    sends empty_state + 1 + 1.
Proof.
  destruct (at_most_two_model_calls paris_world configured hello empty_state)
    as (_ & _ & Htool).
  rewrite (Htool (tool_reply "Paris" "celsius")
             (hello_chat (tool_reply "Paris" "celsius")) hello_opened
             paris_part paris_call); [reflexivity| |reflexivity..].
  vm_compute. reflexivity.
Defined.

(** ** What the first call of the model carries *)

(** X14: with the table bound and both table requests succeeding, the first
    call of the model carries at most five history entries, all of the
    requesting user, oldest first, followed by the new message with role
    [user]; it is preceded by exactly one write and one query. *)
Theorem first_call_carries_bounded_history w g t request s :
  chat_history_table g = Bound t →
  str_truthy (userId request) = true →
  str_truthy (message request) = true →
  store_fault w (store_requests s) = None →
  store_fault w (S (store_requests s)) = None →
  ∃ history,
    length history ≤ 5 ∧
    StronglySorted ts_le history ∧
    (∀ x, x ∈ history → UserID x = userId request) ∧
    trace (chat_open w g request s).2 =
      trace s ++
        [EvPutItem (user_item w request s);
         EvQuery (userId request) 5;
         EvSendMessage
           ((history_entry <$> history) ++
            [TextContent "user" (message request)])].
Proof.
  intros Hg Hu Hm Hf1 Hf2.
  rewrite (chat_open_run w g t) by done. rewrite send_message_run.
  eexists. split; [|split; [|split; [|simpl; by rewrite <- !app_assoc]]].
  - rewrite sorted_by_timestamp_length.
    pose proof (query_items_length
      (<[(userId request, isoformat (now w (clock_reads s)))
         := ("USER", message request)]> (table s)) (userId request)
      (Z.to_nat 5)) as Hl.
    exact Hl.
  - apply sorted_by_timestamp_sorted.
  - intros x Hx. rewrite elem_of_sorted_by_timestamp in Hx.
    unfold query_items in Hx. apply subseteq_take in Hx.
    rewrite elem_of_reverse, elem_of_sorted_by_timestamp in Hx.
    by apply elem_of_user_items in Hx as [? _].
Qed.

Lemma first_call_carries_bounded_history_witness :
  ∃ history,
    length history ≤ 5 ∧
    StronglySorted ts_le history ∧
    (∀ x, x ∈ history → UserID x = "u1") ∧
    trace (chat_open paris_world configured hello busy_state).2 =
      trace busy_state ++
        [EvPutItem (user_item paris_world hello busy_state);
         EvQuery "u1" 5;
         EvSendMessage
           ((history_entry <$> history) ++ [TextContent "user" "hello"])].
Proof.
  apply (first_call_carries_bounded_history paris_world configured
           "ChatHistory" hello busy_state); reflexivity.
Defined.

(** ** Reading a turn back *)

(** The table after a turn that returned: the two items are in it. *)
Lemma successful_turn_table w g t request s resp s' :
  chat_history_table g = Bound t →
  chat_with_gemini w g request s = (Ok resp, s') →
  table s' =
    <[(userId request, isoformat (now w (S (clock_reads s))))
      := ("BOT", response resp)]>
      (<[(userId request, isoformat (now w (clock_reads s)))
         := ("USER", message request)]> (table s)).
Proof.
  intros Hg. rewrite chat_with_gemini_unfold, chat_answer_unfold.
  destruct (chat_open w g request s) as [[[r chat]|e] s1] eqn:Ho; [|done].
  assert (table s1 = <[(userId request, isoformat (now w (clock_reads s)))
                       := ("USER", message request)]> (table s)) as Ht1.
  { revert Ho. unfold chat_open. destruct (_ || _); [done|].
    unfold mbind at 1, M_bind at 1.
    rewrite (save_message_run _ _ _ _ _ _ _ Hg).
    destruct (store_fault w (store_requests s)); [done|].
    intros Ho.
    pose proof (preserves_bind table
      (get_recent_history w g (userId request) 5)
      (λ history, send_message w (history_entry <$> history)
                    (TextContent "user" (message request)))
      (get_recent_history_table _ _ _ _)
      (λ h, send_message_table _ _ _)) as Hp.
    match type of Ho with ?m ?sa = _ => specialize (Hp sa) end.
    by rewrite Ho in Hp. }
  pose proof (response_text_of_table w g chat r s1) as Hr.
  pose proof (response_text_of_writes w g chat r s1) as Hc.
  rewrite (chat_open_writes _ _ _ _ _ _ _ Hg Ho) in Hc.
  destruct (response_text_of w g chat r s1) as [[text_|e] s2]; [|done].
  simpl in Hr, Hc. unfold writes_and_clock in Hc. injection Hc as _ Hclock.
  rewrite (save_message_run _ _ _ _ _ _ _ Hg).
  destruct (store_fault w (store_requests s2)); [done|].
  intros [= <- <-]. simpl. by rewrite Hclock, Hr, Ht1.
Qed.

(** In a list sorted newest first without repetition, an item that is the
    newest, and the only one with its sort key, comes first. *)
Lemma newest_comes_first (l : list Item) it :
  StronglySorted (flip ts_le) l → NoDup l → it ∈ l →
  (∀ x, x ∈ l → ts_le x it) →
  (∀ x, x ∈ l → Timestamp x = Timestamp it → x = it) →
  ∃ rest, l = it :: rest ∧ it ∉ rest.
Proof.
  intros Hs Hnd Hin Hmax Huniq. destruct l as [|h rest].
  { by apply elem_of_nil in Hin. }
  apply StronglySorted_cons in Hs as [Hh _].
  apply NoDup_cons in Hnd as [Hnotin _]. rewrite Forall_forall in Hh.
  assert (h = it) as ->; [|by exists rest].
  apply Huniq; [left|]. apply (anti_symm String.le).
  - apply Hmax. left.
  - apply elem_of_cons in Hin as [->|Hin]; [done|]. by apply Hh.
Qed.

(** If [b] is the user's newest item and [a] the newest of the others, a
    window of at least two items ends with [a] and then [b]. *)
Lemma window_ends_with_two_newest (t : Table) user_id a b n :
  a ∈ user_items t user_id → b ∈ user_items t user_id →
  ¬ ts_le b a →
  (∀ x, x ∈ user_items t user_id → ts_le x b) →
  (∀ x, x ∈ user_items t user_id → x ≠ b → ts_le x a) →
  ∃ older,
    length older ≤ n ∧
    sorted_by_timestamp (query_items t user_id (S (S n))) = older ++ [a; b].
Proof.
  intros Ha Hb Hba Hmaxb Hmaxa. unfold query_items.
  pose proof (newest_first_sorted t user_id) as Hs.
  assert (NoDup (reverse (sorted_by_timestamp (user_items t user_id)))) as Hnd.
  { rewrite reverse_Permutation, sorted_by_timestamp_perm.
    apply NoDup_user_items. }
  assert (∀ x, x ∈ reverse (sorted_by_timestamp (user_items t user_id)) ↔
               x ∈ user_items t user_id) as Hmem.
  { intros x. by rewrite elem_of_reverse, elem_of_sorted_by_timestamp. }
  destruct (newest_comes_first _ b Hs Hnd) as (rest & E & Hbrest).
  { by apply Hmem. }
  { intros x Hx. by apply Hmaxb, Hmem. }
  { intros x Hx%Hmem Hts. by eapply user_items_distinct. }
  rewrite E in Hs, Hnd, Hmem. rewrite E.
  apply StronglySorted_cons in Hs as [_ Hs]. apply NoDup_cons in Hnd as [_ Hnd].
  assert (a ≠ b) as Hab.
  { intros ->. by apply Hba. }
  destruct (newest_comes_first rest a Hs Hnd) as (rest' & E' & Harest).
  { apply Hmem in Ha. by apply elem_of_cons in Ha as [?|?]. }
  { intros x Hx. apply Hmaxa; [apply Hmem; by right|]. by intros ->. }
  { intros x Hx Hts. eapply user_items_distinct; [| |exact Hts].
    - apply Hmem. by right.
    - done. }
  rewrite E' in Hmem. rewrite E'. simpl.
  exists (sorted_by_timestamp (take n rest')). split.
  { rewrite sorted_by_timestamp_length, length_take. lia. }
  assert (∀ y, y ∈ sorted_by_timestamp (take n rest') →
            y ∈ user_items t user_id ∧ y ≠ a ∧ y ≠ b) as Hrest.
  { intros y Hy. rewrite elem_of_sorted_by_timestamp in Hy.
    apply subseteq_take in Hy. split; [apply Hmem; by do 2 right|].
    split; intros ->; [done|].
    apply Hbrest. rewrite E'. by right. }
  assert (∀ x y : Item, ts_le x y → ts_le y x → Timestamp x = Timestamp y)
    as Hanti.
  { intros x y ??. by apply (anti_symm String.le). }
  rewrite (insert_by_timestamp_last a).
  - rewrite (insert_by_timestamp_last b); [by rewrite <- app_assoc|].
    intros y [Hy|Hy%list_elem_of_singleton]%elem_of_app Hle.
    + destruct (Hrest y Hy) as (Hyu & _ & Hyb). apply Hyb.
      eapply user_items_distinct; [done..|]. apply Hanti; [by apply Hmaxb|done].
    + subst y. done.
  - intros y Hy Hle. destruct (Hrest y Hy) as (Hyu & Hya & Hyb). apply Hya.
    eapply user_items_distinct; [done..|]. apply Hanti; [by apply Hmaxa|done].
Qed.

Lemma string_ltb_le a b :
  String.ltb a b = true → a ≠ b ∧ String.le a b ∧ ¬ String.le b a.
Proof.
  unfold String.ltb, String.le, String.leb. intros Hlt.
  rewrite (String.compare_antisym b a).
  destruct (String.compare a b) eqn:E; try discriminate. simpl.
  split; [|split; [done|by intros []]].
  intros ->. by rewrite string_compare_refl in E.
Qed.

(** X15: after a turn that returned 200, reading the user's history gives
    the USER item and then the BOT item of that turn as its last two
    entries, provided the first clock reading was no earlier than
    everything the user had stored and the second reading sorts strictly
    after the first. *)
Theorem successful_turn_is_read_back w g t request s resp s' :
  chat_history_table g = Bound t →
  chat_with_gemini w g request s = (Ok resp, s') →
  (∀ x, x ∈ user_items (table s) (userId request) →
        String.le (Timestamp x) (isoformat (now w (clock_reads s)))) →
  ts_lt (isoformat (now w (clock_reads s)))
        (isoformat (now w (S (clock_reads s)))) →
  ∀ w' items s2,
    get_full_history w' g (userId request) s' = (Ok items, s2) →
    ∃ older,
      length older ≤ 98 ∧
      items = older ++
        [user_item w request s;
         {| UserID := userId request;
            Timestamp := isoformat (now w (S (clock_reads s)));
            Sender := "BOT"; Message := response resp |}].
Proof.
  intros Hg Hrun Hnew Hlt w' items s2 (_ & -> & _)%get_recent_history_ok.
  rewrite (successful_turn_table _ _ _ _ _ _ _ Hg Hrun).
  destruct (string_ltb_le _ _ Hlt) as (Hne & Hle & Hnle).
  revert Hnew Hne Hle Hnle. unfold user_item.
  generalize (isoformat (now w (clock_reads s))) as ts1.
  generalize (isoformat (now w (S (clock_reads s)))) as ts2.
  intros ts2 ts1 Hnew Hne Hle Hnle.
  change (Z.to_nat 100) with (S (S 98)).
  apply window_ends_with_two_newest.
  - apply elem_of_user_items. split; [done|]. cbn.
    rewrite lookup_insert_ne by congruence. apply lookup_insert_eq.
  - apply elem_of_user_items. split; [done|]. apply lookup_insert_eq.
  - done.
  - intros x [Hu Hx]%elem_of_user_items. unfold ts_le. cbn.
    destruct (decide (Timestamp x = ts2)) as [->|H2]; [done|].
    rewrite lookup_insert_ne in Hx by congruence.
    destruct (decide (Timestamp x = ts1)) as [->|H1]; [done|].
    rewrite lookup_insert_ne in Hx by congruence.
    etrans; [|exact Hle]. apply Hnew, elem_of_user_items. by split.
  - intros x [Hu Hx]%elem_of_user_items Hxb. unfold ts_le. cbn.
    destruct (decide (Timestamp x = ts2)) as [E2|H2].
    { exfalso. apply Hxb. rewrite E2, lookup_insert_eq in Hx.
      destruct x. by simplify_eq/=. }
    rewrite lookup_insert_ne in Hx by congruence.
    destruct (decide (Timestamp x = ts1)) as [->|H1]; [done|].
    rewrite lookup_insert_ne in Hx by congruence.
    apply Hnew, elem_of_user_items. by split.
Qed.

Lemma successful_turn_is_read_back_witness :
  ∃ older,
    length older ≤ 98 ∧
    [old_question; old_answer; later_question;
     {| UserID := "u1"; Timestamp := "2024-01-02T03:04:10+00:00";
        Sender := "USER"; Message := "hello" |};
     {| UserID := "u1"; Timestamp := "2024-01-02T03:04:11+00:00";
        Sender := "BOT"; Message := "Report: " +:+ paris_report |}] =
    older ++
      [user_item paris_world hello busy_state;
       {| UserID := userId hello;
          Timestamp := isoformat (now paris_world (S (clock_reads busy_state)));
          Sender := "BOT";
          Message := response {| response := "Report: " +:+ paris_report |} |}].
Proof.
  apply (successful_turn_is_read_back paris_world configured "ChatHistory"
           hello busy_state {| response := "Report: " +:+ paris_report |}
           (chat_with_gemini paris_world configured hello busy_state).2)
    with (w' := paris_world)
         (s2 := (get_full_history paris_world configured (userId hello)
                   (chat_with_gemini paris_world configured hello busy_state).2).2).
  - reflexivity.
  - vm_compute. reflexivity.
  - apply Forall_forall. apply (bool_decide_unpack _). vm_compute. exact I.
  - vm_compute. reflexivity.
  - vm_compute. reflexivity.
Defined.
